(** * react-redux-api-middleware: a shallow embedding and its properties

    The development follows the two source modules of the library:

    - [apiClient.js]: [callApi] and the three response handlers;
    - [apiMiddleware.js]: the action-set constructor, the three lifecycle
      action constructors and [apiMiddleware] (the variant configured with a
      [getAuthToken] capability); the older variant of the constructors,
      which take a type string instead of an action set, is in [Module Legacy].

    JavaScript values are a first-order tree type; objects are finite maps
    from property names to values.  Code that can throw returns a
    [Completion]; the calls to [next] are recorded in a dispatch log that is
    threaded through the middleware; a promise is represented by the way it
    settles.

    What the library is given from outside is a parameter: [next] and
    [getAuthToken] are functions that return, [JSON.stringify] is a function
    of the platform, and the network is the way the promise of [fetch]
    settles. *)

From stdpp Require Import base numbers gmap strings list fin_maps pretty.

Open Scope Z_scope.
Open Scope string_scope.

(** ** JavaScript values *)

#[local] Set Warnings "-register-all".

(** Numbers are the integers (the library itself does no arithmetic; a
    response status is a number).  [JErr] is an instance of [Error]: its
    [name], its [message] and its own enumerable properties.  There is no
    function value: the callbacks the library receives ([next],
    [getAuthToken], [JSON.stringify], [fetch]) are taken as parameters. *)
Inductive JsVal : Type :=
| JUndefined
| JNull
| JBool (b : bool)
| JNum (n : Z)
| JStr (s : string)
| JArr (elems : list JsVal)
| JObj (props : gmap string JsVal)
| JErr (name message : string) (props : gmap string JsVal).

(** The result of evaluating code that may throw. *)
Inductive Completion (A : Type) : Type :=
| Normal (a : A)
| Throw (e : JsVal).
Arguments Normal {A} a.
Arguments Throw {A} e.

#[export] Instance Completion_ret : MRet Completion := fun A a => Normal a.
#[export] Instance Completion_bind : MBind Completion := fun A B f c =>
  match c with
  | Normal a => f a
  | Throw e => Throw e
  end.

(** How a promise settles. *)
Inductive Settled : Type :=
| Resolved (v : JsVal)
| Rejected (e : JsVal).

Definition newError (message : string) : JsVal := JErr "Error" message ∅.
Definition newTypeError (message : string) : JsVal := JErr "TypeError" message ∅.

Definition isUndefined (v : JsVal) : bool :=
  match v with JUndefined => true | _ => false end.

Definition isNullish (v : JsVal) : bool :=
  match v with JUndefined | JNull => true | _ => false end.

(** [typeof v === 'string'] *)
Definition isString (v : JsVal) : bool :=
  match v with JStr _ => true | _ => false end.

(** [v === 'lit'] for a string literal *)
Definition strictEqStr (v : JsVal) (lit : string) : bool :=
  match v with JStr s => bool_decide (s = lit) | _ => false end.

(** ToBoolean: [undefined], [null], [false], [0] and [''] are falsy. *)
Definition toBoolean (v : JsVal) : bool :=
  match v with
  | JUndefined | JNull => false
  | JBool b => b
  | JNum n => negb (n =? 0)%Z
  | JStr s => negb (bool_decide (s = ""))
  | JArr _ | JObj _ | JErr _ _ _ => true
  end.

(** A destructuring or parameter default: [x = d] takes [d] exactly when the
    supplied value is [undefined]. *)
Definition withDefault (d v : JsVal) : JsVal :=
  match v with JUndefined => d | _ => v end.

(** The index-keyed properties of a string or an array. *)
Definition indexed (l : list JsVal) : gmap string JsVal :=
  list_to_map (imap (fun (i : nat) x => (pretty i, x)) l).

Definition chars (s : string) : list JsVal :=
  (fun c => JStr (String c "")) <$> String.list_ascii_of_string s.

(** The own enumerable properties of a value: what [{...v}] copies. *)
Definition spread (v : JsVal) : gmap string JsVal :=
  match v with
  | JObj props | JErr _ _ props => props
  | JArr l => indexed l
  | JStr s => indexed (chars s)
  | JUndefined | JNull | JBool _ | JNum _ => ∅
  end.

(** Own properties that are not enumerable. *)
Definition hiddenProp (v : JsVal) (k : string) : JsVal :=
  match v with
  | JErr name message _ =>
      if bool_decide (k = "message") then JStr message
      else if bool_decide (k = "name") then JStr name
      else JUndefined
  | JArr l => if bool_decide (k = "length") then JNum (Z.of_nat (length l)) else JUndefined
  | JStr s => if bool_decide (k = "length") then JNum (Z.of_nat (String.length s)) else JUndefined
  | _ => JUndefined
  end.

(** The property [k] of a value that is neither [undefined] nor [null]; an
    absent property reads as [undefined].  Inherited methods are not values
    of the embedding; the one the library calls, [toString], is
    [callToString] below. *)
Definition member (v : JsVal) (k : string) : JsVal :=
  match spread v !! k with
  | Some x => x
  | None => hiddenProp v k
  end.

(** [v.k] and [v[k]]: reading a property of [undefined] or [null] throws a
    TypeError. *)
Definition getProp (v : JsVal) (k : string) : Completion JsVal :=
  if isNullish v
  then Throw (newTypeError ("Cannot read property " +:+ k))
  else Normal (member v k).

(** [Error.prototype.toString] *)
Definition errorToString (name message : string) : string :=
  if bool_decide (name = "") then message
  else if bool_decide (message = "") then name
  else name +:+ ": " +:+ message.

(** ToString, as a template literal applies it.  An object is converted by
    the [toString] it finds: an own property of that name shadows the
    inherited method and, not being a function, makes the conversion throw;
    otherwise the method of the prototype answers.  [Array.prototype.toString]
    joins the elements with commas, [undefined] and [null] giving the empty
    string. *)
Fixpoint ToString (v : JsVal) : Completion string :=
  match v with
  | JUndefined => Normal "undefined"
  | JNull => Normal "null"
  | JBool b => Normal (if b then "true" else "false")
  | JNum n => Normal (pretty n)
  | JStr s => Normal s
  | JArr l =>
      (fix join (l : list JsVal) : Completion string :=
         match l with
         | [] => Normal ""
         | x :: tail =>
             s ← (if isNullish x then Normal "" else ToString x);
             match tail with
             | [] => Normal s
             | _ :: _ => r ← join tail; Normal (s +:+ "," +:+ r)
             end
         end) l
  | JObj props =>
      match props !! "toString" with
      | Some _ => Throw (newTypeError "Cannot convert object to primitive value")
      | None => Normal "[object Object]"
      end
  | JErr name message props =>
      match props !! "toString" with
      | Some _ => Throw (newTypeError "Cannot convert object to primitive value")
      | None => Normal (errorToString name message)
      end
  end.

(** The method call [v.toString()]. *)
Definition callToString (v : JsVal) : Completion string :=
  if isNullish v
  then Throw (newTypeError "Cannot read property toString")
  else ToString v.

(** Object literals are built left to right: [prop k v] is a [k: v] entry
    and [rest src] a [...src] entry; later entries overwrite earlier ones. *)
Definition prop (k : string) (v : JsVal) (o : gmap string JsVal) : gmap string JsVal :=
  <[k := v]> o.
Definition rest (src : JsVal) (o : gmap string JsVal) : gmap string JsVal :=
  spread src ∪ o.

Notation "o ▹ f" := (f o) (at level 45, left associativity, only parsing).

(** [o.k] on an object the code has just built. *)
Definition field (o : gmap string JsVal) (k : string) : JsVal :=
  member (JObj o) k.

(** The assignment [target.k = v], used on objects the code has just
    created; a primitive target is left as it is. *)
Definition setProp (target : JsVal) (k : string) (v : JsVal) : JsVal :=
  match target with
  | JObj props => JObj (<[k := v]> props)
  | JErr name message props => JErr name message (<[k := v]> props)
  | _ => target
  end.

(** ** Effects: the dispatch log *)

(** The middleware's only effect is to call [next]; the log lists the
    actions [next] was called with, oldest first. *)
Definition Eff (A : Type) : Type := list JsVal → Completion A * list JsVal.

#[export] Instance Eff_ret : MRet Eff := fun A a log => (Normal a, log).
#[export] Instance Eff_bind : MBind Eff := fun A B f m log =>
  match m log with
  | (Normal a, log') => f a log'
  | (Throw e, log') => (Throw e, log')
  end.

Definition lift {A : Type} (c : Completion A) : Eff A := fun log => (c, log).
Definition throw {A : Type} (e : JsVal) : Eff A := lift (Throw e).

(** [next(a)]: the next stage of the pipeline is a function that returns. *)
Definition call (next : JsVal → JsVal) (a : JsVal) : Eff JsVal :=
  fun log => (Normal (next a), (log ++ [a])%list).

(** [p.then(onFulfilled, onRejected)]: the handler for the way [p] settled
    runs once; the new promise resolves with what it returns and rejects
    with what it throws. *)
Definition then_ (p : Settled) (onFulfilled onRejected : JsVal → Eff JsVal)
    (log : list JsVal) : Settled * list JsVal :=
  let '(c, log') :=
    match p with
    | Resolved v => onFulfilled v log
    | Rejected e => onRejected e log
    end in
  (match c with Normal v => Resolved v | Throw e => Rejected e end, log').

(** ** apiClient.js *)

(** What the platform supplies to [callApi] besides [fetch]. *)
Class Platform := { JSON_stringify : JsVal → JsVal }.

(** A response as [callApi] looks at it: its status and the way the promise
    [response.json()] settles (it rejects when the body is not JSON). *)
Record Response := { status : Z; json : Settled }.

(** How the promise [fetch(url, params)] settles. *)
Inductive Fetched : Type :=
| Responded (response : Response)
| Failed (e : JsVal).

Record FetchCall := { fetch_url : JsVal; fetch_params : JsVal }.

Definition handleSuccessfulResponse (response : Response) : Settled :=
  json response.

Definition handleUnauthorizedResponse : Settled :=
  let error := newError "401 - Unauthorized" in
  let error := setProp error "unauthorized" (JBool true) in
  Rejected error.

Definition handleErrorResponse (response : Response) : Settled :=
  match json response with
  | Resolved res => Rejected res
  | Rejected e => Rejected e
  end.

(** [callApi] up to its call of [fetch]: the arguments [fetch] receives. *)
Definition callApi_fetch {platform : Platform} (url body method options : JsVal) : FetchCall :=
  let method := withDefault (JStr "GET") method in
  let options := withDefault (JObj ∅) options in
  let params := ∅ ▹ rest options ▹ prop "method" method in
  let params :=
    if strictEqStr method "POST" then
      let params :=
        params ▹ prop "body" (if toBoolean body then JSON_stringify body else body) in
      params ▹ prop "headers"
                 (JObj (∅ ▹ rest (field params "headers")
                          ▹ prop "Content-Type" (JStr "application/json;")))
    else params in
  {| fetch_url := url; fetch_params := JObj params |}.

(** [callApi] from there: how the promise it returns settles, given how
    the promise of [fetch] did. *)
Definition callApi_settle (fetched : Fetched) : Settled :=
  match fetched with
  | Failed e => Rejected e
  | Responded response =>
      if (200 <=? status response)%Z && (status response <? 300)%Z
      then handleSuccessfulResponse response
      else if (status response =? 401)%Z
      then handleUnauthorizedResponse
      else handleErrorResponse response
  end.

(** ** apiMiddleware.js *)

Definition API_CALL : string := "API_CALL".

Module apiActionType.
Definition SUCCESS : string := "SUCCESS".
Definition ERROR : string := "ERROR".
Definition LOADING : string := "LOADING".
End apiActionType.

(** The template literal [`${a}_${b}`] *)
Definition template_underscore (a b : JsVal) : Completion string :=
  sa ← ToString a; sb ← ToString b; Normal (sa +:+ "_" +:+ sb).

Definition createApiActionSet (actionName : JsVal) : Completion JsVal :=
  loading ← template_underscore actionName (JStr apiActionType.LOADING);
  success ← template_underscore actionName (JStr apiActionType.SUCCESS);
  error ← template_underscore actionName (JStr apiActionType.ERROR);
  Normal (JObj (∅ ▹ prop "LOADING" (JStr loading)
                  ▹ prop "SUCCESS" (JStr success)
                  ▹ prop "ERROR" (JStr error)
                  ▹ prop "actionName" actionName)).

Definition createSuccessAction (actions response meta : JsVal) : Completion JsVal :=
  type ← getProp actions "SUCCESS";
  actionName ← getProp actions "actionName";
  Normal (JObj (∅ ▹ prop "type" type
                  ▹ prop "apiActionType" (JStr apiActionType.SUCCESS)
                  ▹ prop "actionName" actionName
                  ▹ prop "response" response
                  ▹ rest meta)).

Definition createErrorAction (actions error meta : JsVal) : Completion JsVal :=
  type ← getProp actions "ERROR";
  str ← callToString error;
  actionName ← getProp actions "actionName";
  Normal (JObj (∅ ▹ prop "type" type
                  ▹ prop "apiActionType" (JStr apiActionType.ERROR)
                  ▹ prop "rawError" error
                  ▹ prop "error" (JStr str)
                  ▹ prop "actionName" actionName
                  ▹ rest meta)).

Definition createLoadingAction (actions meta : JsVal) : Completion JsVal :=
  type ← getProp actions "LOADING";
  actionName ← getProp actions "actionName";
  Normal (JObj (∅ ▹ prop "type" type
                  ▹ prop "apiActionType" (JStr apiActionType.LOADING)
                  ▹ prop "actionName" actionName
                  ▹ rest meta)).

(** The constructors of the older variant of the module take the type of
    the action, not the action set, and do not echo [actionName]. *)
Module Legacy.

Definition createSuccessAction (action response meta : JsVal) : Completion JsVal :=
  Normal (JObj (∅ ▹ prop "type" action
                  ▹ prop "apiActionType" (JStr apiActionType.SUCCESS)
                  ▹ prop "response" response
                  ▹ rest meta)).

Definition createErrorAction (action error meta : JsVal) : Completion JsVal :=
  str ← callToString error;
  Normal (JObj (∅ ▹ prop "type" action
                  ▹ prop "apiActionType" (JStr apiActionType.ERROR)
                  ▹ prop "rawError" error
                  ▹ prop "error" (JStr str)
                  ▹ rest meta)).

Definition createLoadingAction (action meta : JsVal) : Completion JsVal :=
  Normal (JObj (∅ ▹ prop "type" action
                  ▹ prop "apiActionType" (JStr apiActionType.LOADING)
                  ▹ rest meta)).

End Legacy.

(** The arguments of a call of [callApi]. *)
Record ApiRequest := {
  req_url : JsVal;
  req_body : JsVal;
  req_method : JsVal;
  req_options : JsVal;
}.

(** What [apiMiddleware] returns: either the value [next(action)] returned,
    or the promise [callApi(...).then(...)], which is given by the call of
    [callApi] and by what the two handlers close over. *)
Inductive Returned : Type :=
| Value (v : JsVal)
| Promise (req : ApiRequest) (actions meta : JsVal).

(** The descriptors that pass the three checks of [apiMiddleware]: [url] is
    a string, [actions] is truthy and so are its [SUCCESS], [ERROR] and
    [LOADING]. *)
Definition validDescriptor (apiCall : JsVal) : bool :=
  negb (isNullish apiCall)
  && isString (member apiCall "url")
  && toBoolean (member apiCall "actions")
  && toBoolean (member (member apiCall "actions") "SUCCESS")
  && toBoolean (member (member apiCall "actions") "ERROR")
  && toBoolean (member (member apiCall "actions") "LOADING").

Section Middleware.

Context {Store : Type}.

(** The configuration: [getAuthToken] is a function of the store, or is
    falsy ([None]): absent as in [defaultConfig], [null] as in
    [defaultPrefs]. *)
Record Config := { getAuthToken : option (Store → JsVal) }.

Definition defaultConfig : Config := {| getAuthToken := None |}.
Definition defaultPrefs : Config := {| getAuthToken := None |}.

(** [response => next(createSuccessAction(actions, response, meta))] *)
Definition onFulfilled (next : JsVal → JsVal) (actions meta response : JsVal) : Eff JsVal :=
  successAction ← lift (createSuccessAction actions response meta);
  call next successAction.

(** [error => { if (error.unauthorized) { }
                return next(createErrorAction(actions, error, meta)); }] *)
Definition onRejected (next : JsVal → JsVal) (actions meta error : JsVal) : Eff JsVal :=
  unauthorized ← lift (getProp error "unauthorized");
  _ ← (if toBoolean unauthorized return Eff () then mret () else mret ());
  errorAction ← lift (createErrorAction actions error meta);
  call next errorAction.

(** The block of [apiMiddleware] that computes [apiOptions]:
    [let apiOptions = { ...options };
     if (authenticated && getAuthToken) {
       apiOptions = { ...apiOptions,
                      headers: { ...apiOptions.headers,
                                 Authorization: `Bearer ${getAuthToken(store)}` } };
     }] *)
Definition apiOptionsFor (getAuthToken : option (Store → JsVal)) (store : Store)
    (options authenticated : JsVal) : Completion (gmap string JsVal) :=
  let apiOptions := ∅ ▹ rest options in
  match toBoolean authenticated, getAuthToken with
  | true, Some getAuthToken =>
      token ← ToString (getAuthToken store);
      Normal (∅ ▹ rest (JObj apiOptions)
                ▹ prop "headers"
                    (JObj (∅ ▹ rest (field apiOptions "headers")
                             ▹ prop "Authorization" (JStr ("Bearer " +:+ token)))))
  | _, _ => Normal apiOptions
  end.

(** The synchronous part of [apiMiddleware(config)(store)(next)(action)]:
    everything up to the [return]. *)
Definition apiMiddleware (config : Config) (store : Store) (next : JsVal → JsVal)
    (action : JsVal) : Eff Returned :=
  apiCall ← lift (getProp action API_CALL);
  if isUndefined apiCall then
    v ← call next action; mret (Value v)
  else
    let getAuthToken := getAuthToken config in
    url ← lift (getProp apiCall "url");
    body ← lift (getProp apiCall "body");
    actions ← lift (getProp apiCall "actions");
    meta ← lift (getProp apiCall "meta");
    method ← lift (getProp apiCall "method");
    options ← lift (getProp apiCall "options");
    authenticated ← lift (getProp apiCall "authenticated");
    let authenticated := withDefault (JBool true) authenticated in
    if negb (isString url) then
      throw (newError "Api call action does not contain url string")
    else if negb (toBoolean actions) then
      throw (newError "Api call action does not contain action group")
    else
      success ← lift (getProp actions "SUCCESS");
      error ← lift (getProp actions "ERROR");
      loading ← lift (getProp actions "LOADING");
      if negb (toBoolean success) || negb (toBoolean error) || negb (toBoolean loading) then
        throw (newError ("Api call does not contain a correct action group. " +:+
                         "Please use createApiActionSet to create actions."))
      else
        apiOptions ← lift (apiOptionsFor getAuthToken store options authenticated);
        loadingAction ← lift (createLoadingAction actions meta);
        _ ← call next loadingAction;
        mret (Promise {| req_url := url; req_body := body;
                         req_method := method; req_options := JObj apiOptions |}
                      actions meta).

(** The rest of it: the promise [callApi(...)] settles and one of the two
    handlers runs. *)
Definition settle (next : JsVal → JsVal) (actions meta : JsVal) (transport : Settled)
    (log : list JsVal) : Settled * list JsVal :=
  then_ transport (onFulfilled next actions meta) (onRejected next actions meta) log.

End Middleware.

Arguments Config : clear implicits.

(** ** apiMiddleware.js, the older variant

    The middleware that reads the token from the state of the store and
    builds its actions with the constructors of [Legacy]. *)
Module LegacyMiddleware.

(** The store as the middleware uses it: the state [store.getState()]
    returns. *)
Record Store := { getState : JsVal }.

(** [() => store.getState().auth.accessToken] *)
Definition getAuthToken (store : Store) : Completion JsVal :=
  auth ← getProp (getState store) "auth";
  getProp auth "accessToken".

(** The block that computes [apiOptions]; [getAuthToken] is a function
    here, so [authenticated && getAuthToken] is decided by [authenticated]. *)
Definition apiOptionsFor (store : Store) (options authenticated : JsVal) :
    Completion (gmap string JsVal) :=
  let apiOptions := ∅ ▹ rest options in
  if toBoolean authenticated then
    token ← getAuthToken store;
    token ← ToString token;
    Normal (∅ ▹ rest (JObj apiOptions)
              ▹ prop "headers"
                  (JObj (∅ ▹ rest (field apiOptions "headers")
                           ▹ prop "Authorization" (JStr ("Bearer " +:+ token)))))
  else Normal apiOptions.

(** [response => next(createSuccessAction(actions.SUCCESS, response, meta))] *)
Definition onFulfilled (next : JsVal → JsVal) (actions meta response : JsVal) : Eff JsVal :=
  type ← lift (getProp actions "SUCCESS");
  successAction ← lift (Legacy.createSuccessAction type response meta);
  call next successAction.

(** [error => { if (error.unauthorized) { }
                return next(createErrorAction(actions.ERROR, error, meta)); }] *)
Definition onRejected (next : JsVal → JsVal) (actions meta error : JsVal) : Eff JsVal :=
  unauthorized ← lift (getProp error "unauthorized");
  _ ← (if toBoolean unauthorized return Eff () then mret () else mret ());
  type ← lift (getProp actions "ERROR");
  errorAction ← lift (Legacy.createErrorAction type error meta);
  call next errorAction.

(** The synchronous part of [apiMiddleware()(store)(next)(action)]. *)
Definition apiMiddleware (store : Store) (next : JsVal → JsVal) (action : JsVal) :
    Eff Returned :=
  apiCall ← lift (getProp action API_CALL);
  if isUndefined apiCall then
    v ← call next action; mret (Value v)
  else
    url ← lift (getProp apiCall "url");
    body ← lift (getProp apiCall "body");
    actions ← lift (getProp apiCall "actions");
    meta ← lift (getProp apiCall "meta");
    method ← lift (getProp apiCall "method");
    options ← lift (getProp apiCall "options");
    authenticated ← lift (getProp apiCall "authenticated");
    let authenticated := withDefault (JBool true) authenticated in
    if negb (isString url) then
      throw (newError "Api call action does not contain url string")
    else if negb (toBoolean actions) then
      throw (newError "Api call action does not contain action group")
    else
      success ← lift (getProp actions "SUCCESS");
      error ← lift (getProp actions "ERROR");
      loading ← lift (getProp actions "LOADING");
      if negb (toBoolean success) || negb (toBoolean error) || negb (toBoolean loading) then
        throw (newError ("Api call does not contain a correct action group. " +:+
                         "Please use createApiActionSet to create actions."))
      else
        apiOptions ← lift (apiOptionsFor store options authenticated);
        type ← lift (getProp actions "LOADING");
        loadingAction ← lift (Legacy.createLoadingAction type meta);
        _ ← call next loadingAction;
        mret (Promise {| req_url := url; req_body := body;
                         req_method := method; req_options := JObj apiOptions |}
                      actions meta).

(** The promise [callApi(...)] settles and one of the two handlers runs. *)
Definition settle (next : JsVal → JsVal) (actions meta : JsVal) (transport : Settled)
    (log : list JsVal) : Settled * list JsVal :=
  then_ transport (onFulfilled next actions meta) (onRejected next actions meta) log.

(** The token a state with an [auth] holds, as a token source of the
    configured middleware. *)
Definition accessTokenOf (store : Store) : JsVal :=
  member (member (getState store) "auth") "accessToken".

End LegacyMiddleware.

(** ** Fixtures

    The values the test suites of the two modules use, and a few more. *)
Module Fixtures.

Definition TEST_ACTION : string := "TEST_ACTION".

Definition TEST_API_ACTION_SET : JsVal :=
  JObj (∅ ▹ prop "LOADING" (JStr "TEST_ACTION_LOADING")
          ▹ prop "SUCCESS" (JStr "TEST_ACTION_SUCCESS")
          ▹ prop "ERROR" (JStr "TEST_ACTION_ERROR")
          ▹ prop "actionName" (JStr TEST_ACTION)).

Definition descriptor (entries : gmap string JsVal → gmap string JsVal) : JsVal :=
  JObj (∅ ▹ prop "url" (JStr "/test") ▹ prop "actions" TEST_API_ACTION_SET ▹ entries).

Definition apiAction (apiCall : JsVal) : JsVal :=
  JObj (∅ ▹ prop API_CALL apiCall).

(** [{ [API_CALL]: { url: '/test', actions: TEST_API_ACTION_SET } }] *)
Definition TEST_API_ACTION : JsVal := apiAction (descriptor id).

(** [{ getAuthToken: () => 'test_token' }] *)
Definition getTestToken : unit → JsVal := fun _ => JStr "test_token".
Definition prefs : Config unit := {| getAuthToken := Some getTestToken |}.

(** [{ test: true }] *)
Definition TEST_EXPECTED_RESPONSE : JsVal := JObj (∅ ▹ prop "test" (JBool true)).

(** [{ type: 'TEST' }] *)
Definition createTestAction : JsVal := JObj (∅ ▹ prop "type" (JStr "TEST")).

(** [{ firstName: 'John', lastName: 'Doe' }] *)
Definition meta : JsVal :=
  JObj (∅ ▹ prop "firstName" (JStr "John") ▹ prop "lastName" (JStr "Doe")).

(** Metadata whose properties collide with fields of an error action. *)
Definition masking : JsVal :=
  JObj (∅ ▹ prop "error" (JStr "masked") ▹ prop "rawError" JNull).

(** Options with a header of the caller's. *)
Definition acceptJson : JsVal :=
  JObj (∅ ▹ prop "headers" (JObj (∅ ▹ prop "Accept" (JStr "application/json")))).

(** Options with an [Authorization] header of the caller's. *)
Definition basicAuth : JsVal :=
  JObj (∅ ▹ prop "headers" (JObj (∅ ▹ prop "Authorization" (JStr "Basic dXNlcjpwdw==")
                                    ▹ prop "Accept" (JStr "application/json")))).

(** [{ url: '/test', actions: TEST_API_ACTION_SET, authenticated: false }] *)
Definition unauthenticated : JsVal :=
  descriptor (prop "authenticated" (JBool false)).

(** The same with the [options] above. *)
Definition unauthenticatedBasic : JsVal :=
  descriptor (fun o => o ▹ prop "authenticated" (JBool false) ▹ prop "options" basicAuth).

(** [{ url: '/test', actions: TEST_API_ACTION_SET, options: acceptJson }] *)
Definition withOptions : JsVal :=
  descriptor (prop "options" acceptJson).

(** A response of the server with a status and a JSON body. *)
Definition respond (status : Z) (body : JsVal) : Fetched :=
  Responded {| status := status; json := Resolved body |}.

(** The loading action of [TEST_API_ACTION_SET] without metadata. *)
Definition loadingAction : JsVal :=
  JObj (∅ ▹ prop "type" (JStr "TEST_ACTION_LOADING")
          ▹ prop "apiActionType" (JStr "LOADING")
          ▹ prop "actionName" (JStr TEST_ACTION)).

(** The success action for [TEST_EXPECTED_RESPONSE]. *)
Definition successAction : JsVal :=
  JObj (∅ ▹ prop "type" (JStr "TEST_ACTION_SUCCESS")
          ▹ prop "apiActionType" (JStr "SUCCESS")
          ▹ prop "actionName" (JStr TEST_ACTION)
          ▹ prop "response" TEST_EXPECTED_RESPONSE).

(** The error action for a rejection with [TEST_EXPECTED_RESPONSE]. *)
Definition errorAction : JsVal :=
  JObj (∅ ▹ prop "type" (JStr "TEST_ACTION_ERROR")
          ▹ prop "apiActionType" (JStr "ERROR")
          ▹ prop "rawError" TEST_EXPECTED_RESPONSE
          ▹ prop "error" (JStr "[object Object]")
          ▹ prop "actionName" (JStr TEST_ACTION)).

(** The options with the token of [prefs]. *)
Definition bearerOptions : JsVal :=
  JObj (∅ ▹ prop "headers" (JObj (∅ ▹ prop "Authorization" (JStr "Bearer test_token")))).

(** The call of [callApi] for a descriptor of the fixtures. *)
Definition request (options : JsVal) : ApiRequest :=
  {| req_url := JStr "/test"; req_body := JUndefined;
     req_method := JUndefined; req_options := options |}.

(** A [next] that returns the action it is given, as the dispatch of a
    store does. *)
Definition next : JsVal → JsVal := id.

(** A serializer for the bodies of the examples, which are integers,
    booleans or [null]; [JSON.stringify(undefined)] is [undefined]. *)
#[export] Instance scalars : Platform := {|
  JSON_stringify v :=
    match v with
    | JNull => JStr "null"
    | JBool b => JStr (if b then "true" else "false")
    | JNum n => JStr (pretty n)
    | _ => JUndefined
    end
|}.

(** Descriptors whose [authenticated] is falsy without being [false]. *)
Definition authenticatedNull : JsVal :=
  descriptor (prop "authenticated" JNull).
Definition authenticatedZero : JsVal :=
  descriptor (prop "authenticated" (JNum 0)).
Definition authenticatedEmpty : JsVal :=
  descriptor (prop "authenticated" (JStr "")).

(** A store whose state holds a token, and the store of the test suite,
    whose state is [{}]. *)
Definition signedIn : LegacyMiddleware.Store :=
  {| LegacyMiddleware.getState :=
       JObj (∅ ▹ prop "auth" (JObj (∅ ▹ prop "accessToken" (JStr "test_token")))) |}.
Definition signedOut : LegacyMiddleware.Store :=
  {| LegacyMiddleware.getState := JObj ∅ |}.

(** The loading action the older middleware builds. *)
Definition legacyLoadingAction : JsVal :=
  JObj (∅ ▹ prop "type" (JStr "TEST_ACTION_LOADING")
          ▹ prop "apiActionType" (JStr "LOADING")).

End Fixtures.

(** * Properties *)

(** ** Reading object literals *)

Lemma lookup_prop_eq (o : gmap string JsVal) (k : string) (v : JsVal) :
  prop k v o !! k = Some v.
Proof. apply lookup_insert_eq. Qed.

Lemma lookup_prop_ne (o : gmap string JsVal) (k k' : string) (v : JsVal) :
  k ≠ k' → prop k v o !! k' = o !! k'.
Proof. intros Hne. by apply lookup_insert_ne. Qed.

Lemma lookup_rest (o : gmap string JsVal) (src : JsVal) (k : string) :
  rest src o !! k = match spread src !! k with Some x => Some x | None => o !! k end.
Proof.
  unfold rest. destruct (spread src !! k) as [x|] eqn:Hk.
  - by apply lookup_union_Some_l.
  - by apply lookup_union_r.
Qed.

Lemma lookup_rest_None (o : gmap string JsVal) (src : JsVal) (k : string) :
  spread src !! k = None → rest src o !! k = o !! k.
Proof. intros Hk. by rewrite lookup_rest, Hk. Qed.

Lemma rest_empty (src : JsVal) : rest src ∅ = spread src.
Proof. unfold rest. apply (right_id_L ∅ (∪)). Qed.

Lemma member_obj (o : gmap string JsVal) (k : string) :
  member (JObj o) k = default JUndefined (o !! k).
Proof. unfold member. simpl. by destruct (o !! k). Qed.

Lemma getProp_obj (o : gmap string JsVal) (k : string) :
  getProp (JObj o) k = Normal (default JUndefined (o !! k)).
Proof. unfold getProp. simpl. by rewrite member_obj. Qed.

Lemma getProp_defined (v : JsVal) (k : string) :
  isNullish v = false → getProp v k = Normal (member v k).
Proof. intros Hv. unfold getProp. by rewrite Hv. Qed.

Lemma getProp_nullish (v : JsVal) (k : string) :
  isNullish v = true → ∃ e, getProp v k = Throw e.
Proof. intros Hv. unfold getProp. rewrite Hv. eauto. Qed.

Lemma truthy_defined (v : JsVal) : toBoolean v = true → isNullish v = false.
Proof. by destruct v. Qed.

Lemma callToString_defined (v : JsVal) (s : string) :
  callToString v = Normal s → isNullish v = false.
Proof. unfold callToString. by destruct (isNullish v). Qed.

(** Reads [k] in a literal: entries of other names are skipped, as are
    [...src] entries that are known not to have [k]. *)
Ltac read_literal :=
  repeat first
    [ rewrite lookup_prop_eq
    | rewrite lookup_prop_ne by (let H := fresh in intros H; discriminate H)
    | rewrite lookup_rest_None by assumption
    | rewrite lookup_empty ].

(** ** The action-set constructor *)

(** C8: for every base name string [n], [createApiActionSet(n)] returns,
    without failing, the action set whose [LOADING], [SUCCESS] and [ERROR]
    are [n] followed by ["_LOADING"], ["_SUCCESS"] and ["_ERROR"], and
    whose [actionName] is [n]; the result is a function of [n] alone. *)
Theorem createApiActionSet_string (n : string) :
  ∃ set : gmap string JsVal,
    createApiActionSet (JStr n) = Normal (JObj set)
    ∧ set !! "LOADING" = Some (JStr (n +:+ "_LOADING"))
    ∧ set !! "SUCCESS" = Some (JStr (n +:+ "_SUCCESS"))
    ∧ set !! "ERROR" = Some (JStr (n +:+ "_ERROR"))
    ∧ set !! "actionName" = Some (JStr n)
    ∧ dom set = {[ "LOADING"; "SUCCESS"; "ERROR"; "actionName" ]}.
Proof.
  eexists. split; [reflexivity|].
  split_and!; read_literal; reflexivity.
Qed.

(** ** The error-action constructor *)

(** The [error] and [rawError] entries of an error action come before the
    [...meta] entry, so [meta] decides them when it has a property of the
    same name. *)
Lemma errorAction_fields (base : gmap string JsVal) (err meta : JsVal) (s : string) :
  let msg := base ▹ prop "rawError" err ▹ prop "error" (JStr s) ▹ rest meta in
  (spread meta !! "error" = None → getProp (JObj msg) "error" = Normal (JStr s))
  ∧ (spread meta !! "rawError" = None → getProp (JObj msg) "rawError" = Normal err).
Proof.
  intros msg. subst msg. split; intros Hfree; rewrite getProp_obj; by read_literal.
Qed.

Lemma errorAction_fields_named (base : gmap string JsVal) (err name meta : JsVal) (s : string) :
  let msg := base ▹ prop "rawError" err ▹ prop "error" (JStr s)
                  ▹ prop "actionName" name ▹ rest meta in
  (spread meta !! "error" = None → getProp (JObj msg) "error" = Normal (JStr s))
  ∧ (spread meta !! "rawError" = None → getProp (JObj msg) "rawError" = Normal err).
Proof.
  intros msg. subst msg. split; intros Hfree; rewrite getProp_obj; by read_literal.
Qed.

(** C9, as amended: for every error value [err] whose [toString()] returns
    a string [s] (so [err] is neither [null] nor [undefined]) and every
    [meta], [createErrorAction] returns a message; its [error] is [s] when
    [meta] has no property [error], and its [rawError] is [err] when [meta]
    has no property [rawError].  This holds for the constructor that takes
    the type and, when the action set is neither [null] nor [undefined], for
    the one that takes the action set. *)
Theorem createErrorAction_error_rawError (actions type err meta : JsVal) (s : string) :
  callToString err = Normal s →
  (∃ msg, Legacy.createErrorAction type err meta = Normal msg
     ∧ (spread meta !! "error" = None → getProp msg "error" = Normal (JStr s))
     ∧ (spread meta !! "rawError" = None → getProp msg "rawError" = Normal err))
  ∧ (isNullish actions = false →
     ∃ msg, createErrorAction actions err meta = Normal msg
       ∧ (spread meta !! "error" = None → getProp msg "error" = Normal (JStr s))
       ∧ (spread meta !! "rawError" = None → getProp msg "rawError" = Normal err)).
Proof.
  intros Hstr. split.
  - unfold Legacy.createErrorAction. rewrite Hstr. eexists. split; [reflexivity|].
    apply errorAction_fields.
  - intros Hactions. unfold createErrorAction.
    rewrite !(getProp_defined actions) by done. rewrite Hstr.
    eexists. split; [reflexivity|]. apply errorAction_fields_named.
Qed.

(** C9 at the error object of the test suite, with and without colliding
    metadata. *)
Lemma createErrorAction_error_rawError_witness :
  callToString Fixtures.TEST_EXPECTED_RESPONSE = Normal "[object Object]"
  ∧ ∃ msg, createErrorAction Fixtures.TEST_API_ACTION_SET
             Fixtures.TEST_EXPECTED_RESPONSE Fixtures.meta = Normal msg
      ∧ getProp msg "error" = Normal (JStr "[object Object]")
      ∧ getProp msg "rawError" = Normal Fixtures.TEST_EXPECTED_RESPONSE.
Proof.
  split; [reflexivity|].
  destruct (createErrorAction_error_rawError Fixtures.TEST_API_ACTION_SET
              (JStr "TEST_ACTION_ERROR") Fixtures.TEST_EXPECTED_RESPONSE
              Fixtures.meta "[object Object]" eq_refl)
    as [_ Hset].
  destruct (Hset eq_refl) as (msg & Hmsg & Herror & Hraw).
  exists msg. split; [exact Hmsg|]. split; [apply Herror|apply Hraw]; reflexivity.
Defined.

(** C9 as stated fails: metadata with an [error] or a [rawError] property
    overwrites the fields of the message; a [null] error makes both
    constructors throw; an [undefined] action set makes the constructor
    that takes the action set throw. *)
Lemma createErrorAction_not_all_inputs :
  callToString Fixtures.TEST_EXPECTED_RESPONSE = Normal "[object Object]"
  ∧ (msg ← Legacy.createErrorAction (JStr "TEST_ACTION_ERROR")
             Fixtures.TEST_EXPECTED_RESPONSE Fixtures.masking;
     getProp msg "error") = Normal (JStr "masked")
  ∧ (msg ← Legacy.createErrorAction (JStr "TEST_ACTION_ERROR")
             Fixtures.TEST_EXPECTED_RESPONSE Fixtures.masking;
     getProp msg "rawError") = Normal JNull
  ∧ (msg ← createErrorAction Fixtures.TEST_API_ACTION_SET
             Fixtures.TEST_EXPECTED_RESPONSE Fixtures.masking;
     getProp msg "error") = Normal (JStr "masked")
  ∧ (msg ← createErrorAction Fixtures.TEST_API_ACTION_SET
             Fixtures.TEST_EXPECTED_RESPONSE Fixtures.masking;
     getProp msg "rawError") = Normal JNull
  ∧ Legacy.createErrorAction (JStr "TEST_ACTION_ERROR") JNull Fixtures.meta
    = Throw (newTypeError "Cannot read property toString")
  ∧ createErrorAction Fixtures.TEST_API_ACTION_SET JNull Fixtures.meta
    = Throw (newTypeError "Cannot read property toString")
  ∧ createErrorAction JUndefined Fixtures.TEST_EXPECTED_RESPONSE Fixtures.meta
    = Throw (newTypeError "Cannot read property ERROR").
Proof. split_and!; reflexivity. Qed.

(** C10: [createErrorAction] calls [toString()] on its error argument
    whatever it is, so for [null] and for [undefined] it throws and returns
    no message; for such a rejection value the rejection handler of the
    middleware throws as well: nothing is dispatched and the promise the
    middleware returned is rejected. *)
Theorem createErrorAction_nullish_error_throws
    (actions type meta error : JsVal) (next : JsVal → JsVal) (log : list JsVal) :
  isNullish error = true →
  (∃ e, createErrorAction actions error meta = Throw e)
  ∧ (∃ e, Legacy.createErrorAction type error meta = Throw e)
  ∧ (∃ e, settle next actions meta (Rejected error) log = (Rejected e, log)).
Proof.
  intros Hnull. split_and!.
  - unfold createErrorAction, callToString. rewrite Hnull.
    destruct (getProp actions "ERROR"); simpl; eauto.
  - unfold Legacy.createErrorAction, callToString. rewrite Hnull. simpl. eauto.
  - destruct (getProp_nullish error "unauthorized" Hnull) as [e He].
    exists e. unfold settle, then_, onRejected. cbn. unfold lift. by rewrite He.
Qed.

Lemma createErrorAction_nullish_error_throws_witness :
  (∃ e, createErrorAction Fixtures.TEST_API_ACTION_SET JNull Fixtures.meta = Throw e)
  ∧ (∃ e, Legacy.createErrorAction (JStr "TEST_ACTION_ERROR") JNull Fixtures.meta = Throw e)
  ∧ (∃ e, settle Fixtures.next Fixtures.TEST_API_ACTION_SET Fixtures.meta (Rejected JNull) []
          = (Rejected e, [])).
Proof.
  apply (createErrorAction_nullish_error_throws Fixtures.TEST_API_ACTION_SET
           (JStr "TEST_ACTION_ERROR") Fixtures.meta JNull Fixtures.next []).
  reflexivity.
Defined.

(** ** The transport helper *)

Lemma strictEqStr_true (v : JsVal) (lit : string) :
  strictEqStr v lit = true ↔ v = JStr lit.
Proof.
  destruct v; simpl; try (split; [discriminate|intros [=]]).
  rewrite bool_decide_eq_true. split; [by intros ->|by intros [= ->]].
Qed.

Lemma strictEqStr_false (v : JsVal) (lit : string) :
  strictEqStr v lit = false ↔ v ≠ JStr lit.
Proof.
  rewrite <- strictEqStr_true. destruct (strictEqStr v lit); split; done.
Qed.



(** C6, as amended: [callApi] treats exactly the method ['POST'] as carrying
    a body.  For it, the [body] of the fetch parameters is
    [JSON.stringify(body)] when [body] is truthy and [body] itself when it is
    falsy, and the [headers] are the caller's with ['Content-Type'] set to
    ['application/json;'].  For every other method, [PUT] and [PATCH]
    included, the fetch parameters are the caller's options and the method,
    nothing more. *)
Theorem callApi_fetch_body_headers {platform : Platform} (url body method options : JsVal) :
  ∃ params,
    callApi_fetch url body method options = {| fetch_url := url; fetch_params := JObj params |}
    ∧ params !! "method" = Some (withDefault (JStr "GET") method)
    ∧ (withDefault (JStr "GET") method = JStr "POST" →
       params !! "body" = Some (if toBoolean body then JSON_stringify body else body)
       ∧ ∃ headers, params !! "headers" = Some (JObj headers)
           ∧ headers !! "Content-Type" = Some (JStr "application/json;")
           ∧ ∀ k, k ≠ "Content-Type" →
               headers !! k
               = spread (field (spread (withDefault (JObj ∅) options)) "headers") !! k)
    ∧ (withDefault (JStr "GET") method ≠ JStr "POST" →
       params = spread (withDefault (JObj ∅) options)
                  ▹ prop "method" (withDefault (JStr "GET") method)).
Proof.
  unfold callApi_fetch.
  destruct (strictEqStr (withDefault (JStr "GET") method) "POST") eqn:Hpost.
  - eexists. split; [reflexivity|]. split_and!.
    + by read_literal.
    + intros _. split; [by read_literal|].
      eexists. split; [by read_literal|]. split; [by read_literal|].
      intros k Hk. rewrite lookup_prop_ne by done.
      rewrite lookup_rest, lookup_empty.
      unfold field. rewrite !member_obj. read_literal. rewrite rest_empty.
      by destruct (spread _ !! k).
    + intros Hne. apply strictEqStr_true in Hpost. by destruct Hne.
  - eexists. split; [reflexivity|]. split_and!.
    + by read_literal.
    + intros Heq. apply strictEqStr_false in Hpost. by destruct Hpost.
    + intros _. by rewrite rest_empty.
Qed.

Lemma callApi_fetch_body_headers_witness :
  (∃ params headers,
     callApi_fetch (platform := Fixtures.scalars)
       (JStr "/test") (JNum 7) (JStr "POST") Fixtures.acceptJson
     = {| fetch_url := JStr "/test"; fetch_params := JObj params |}
     ∧ params !! "body" = Some (JStr "7")
     ∧ params !! "headers" = Some (JObj headers)
     ∧ headers !! "Content-Type" = Some (JStr "application/json;")
     ∧ headers !! "Accept" = Some (JStr "application/json"))
  ∧ callApi_fetch (platform := Fixtures.scalars) (JStr "/test") (JNum 7) JUndefined JUndefined
    = {| fetch_url := JStr "/test"; fetch_params := JObj (∅ ▹ prop "method" (JStr "GET")) |}.
Proof.
  split.
  - destruct (callApi_fetch_body_headers (platform := Fixtures.scalars)
                (JStr "/test") (JNum 7) (JStr "POST") Fixtures.acceptJson)
      as (params & Hcall & _ & Hpost & _).
    destruct (Hpost eq_refl) as (Hbody & headers & Hheaders & Htype & Hkept).
    exists params, headers. split_and!; try assumption.
    rewrite Hkept by discriminate. reflexivity.
  - destruct (callApi_fetch_body_headers (platform := Fixtures.scalars)
                (JStr "/test") (JNum 7) JUndefined JUndefined)
      as (params & Hcall & _ & _ & Hother).
    rewrite Hcall, Hother by discriminate. reflexivity.
Defined.

(** C6 as stated fails: for [PUT] and [PATCH] the body is not serialized
    and no content type is set, the fetch parameters being the method
    alone; and a [POST] with the falsy body [0] passes the number [0], not
    its serialization. *)
Lemma callApi_fetch_PUT_PATCH_plain :
  callApi_fetch (platform := Fixtures.scalars) (JStr "/test") (JNum 7) (JStr "PUT") JUndefined
  = {| fetch_url := JStr "/test"; fetch_params := JObj (∅ ▹ prop "method" (JStr "PUT")) |}
  ∧ callApi_fetch (platform := Fixtures.scalars) (JStr "/test") (JNum 7) (JStr "PATCH") JUndefined
    = {| fetch_url := JStr "/test"; fetch_params := JObj (∅ ▹ prop "method" (JStr "PATCH")) |}
  ∧ getProp (fetch_params (callApi_fetch (platform := Fixtures.scalars)
                             (JStr "/test") (JNum 0) (JStr "POST") JUndefined)) "body"
    = Normal (JNum 0)
  ∧ JSON_stringify (Platform := Fixtures.scalars) (JNum 0) = JStr "0".
Proof. split_and!; reflexivity. Qed.

(** Headers that reach [callApi] reach [fetch]: whatever the method,
    [callApi] keeps every header but ['Content-Type']. *)
Lemma callApi_fetch_header_kept {platform : Platform} (url body method : JsVal)
    (options headers : gmap string JsVal) (k : string) (v : JsVal) :
  options !! "headers" = Some (JObj headers) →
  headers !! k = Some v →
  k ≠ "Content-Type" →
  ∃ params sent,
    fetch_params (callApi_fetch url body method (JObj options)) = JObj params
    ∧ params !! "headers" = Some (JObj sent)
    ∧ sent !! k = Some v.
Proof.
  intros Hheaders Hk Hne. unfold callApi_fetch. simpl withDefault.
  destruct (strictEqStr (withDefault (JStr "GET") method) "POST").
  - do 2 eexists. split; [reflexivity|]. split; [by read_literal|].
    rewrite lookup_prop_ne by done. rewrite lookup_rest, lookup_empty.
    unfold field. rewrite member_obj. read_literal.
    rewrite rest_empty. simpl spread. rewrite Hheaders. simpl. by rewrite Hk.
  - do 2 eexists. split; [reflexivity|].
    rewrite rest_empty. simpl spread. split; [|exact Hk]. by read_literal.
Qed.

(** ** The interception function *)

Lemma bind_lift_Normal {A B : Type} (a : A) (f : A → Eff B) (log : list JsVal) :
  (lift (Normal a) ≫= f) log = f a log.
Proof. reflexivity. Qed.

Lemma bind_lift_Throw {A B : Type} (e : JsVal) (f : A → Eff B) (log : list JsVal) :
  (lift (Throw e) ≫= f) log = (Throw e, log).
Proof. reflexivity. Qed.

Lemma bind_call {B : Type} (next : JsVal → JsVal) (a : JsVal) (f : JsVal → Eff B)
    (log : list JsVal) :
  (call next a ≫= f) log = f (next a) (log ++ [a])%list.
Proof. reflexivity. Qed.

(** Runs the binds whose left side is known. *)
Ltac eff_steps :=
  repeat first
    [ rewrite bind_lift_Normal
    | rewrite bind_lift_Throw
    | rewrite bind_call
    | progress cbv beta zeta ].

Section MiddlewareProperties.

Context {Store : Type}.
Implicit Types (config : Config Store) (store : Store) (next : JsVal → JsVal).
Implicit Types (action apiCall : JsVal) (log : list JsVal).

Lemma validDescriptor_spec apiCall :
  validDescriptor apiCall = true ↔
    isNullish apiCall = false
    ∧ isString (member apiCall "url") = true
    ∧ toBoolean (member apiCall "actions") = true
    ∧ toBoolean (member (member apiCall "actions") "SUCCESS") = true
    ∧ toBoolean (member (member apiCall "actions") "ERROR") = true
    ∧ toBoolean (member (member apiCall "actions") "LOADING") = true.
Proof.
  unfold validDescriptor. rewrite !andb_true_iff, negb_true_iff. tauto.
Qed.

(** For a truthy action set the loading action is built without failing. *)
Lemma createLoadingAction_defined (actions meta : JsVal) :
  isNullish actions = false →
  createLoadingAction actions meta
  = Normal (JObj (∅ ▹ prop "type" (member actions "LOADING")
                    ▹ prop "apiActionType" (JStr apiActionType.LOADING)
                    ▹ prop "actionName" (member actions "actionName")
                    ▹ rest meta)).
Proof.
  intros Hdef. unfold createLoadingAction. by rewrite !getProp_defined.
Qed.

(** The synchronous part on a descriptor that passes the checks: unless
    the conversion of the token throws, the loading action is dispatched
    and the promise of [callApi] is returned. *)
Lemma apiMiddleware_valid config store next action apiCall log :
  getProp action API_CALL = Normal apiCall →
  validDescriptor apiCall = true →
  ∃ loadingAction,
    createLoadingAction (member apiCall "actions") (member apiCall "meta")
    = Normal loadingAction
    ∧ apiMiddleware config store next action log
      = match apiOptionsFor (getAuthToken config) store (member apiCall "options")
                (withDefault (JBool true) (member apiCall "authenticated")) with
        | Normal apiOptions =>
            (Normal (Promise {| req_url := member apiCall "url";
                                req_body := member apiCall "body";
                                req_method := member apiCall "method";
                                req_options := JObj apiOptions |}
                             (member apiCall "actions") (member apiCall "meta")),
             (log ++ [loadingAction])%list)
        | Throw e => (Throw e, log)
        end.
Proof.
  intros Hcall (Hdef & Hurl & Hactions & Hs & He & Hl)%validDescriptor_spec.
  pose proof (truthy_defined _ Hactions) as Hadef.
  eexists. split; [by apply createLoadingAction_defined|].
  unfold apiMiddleware. rewrite Hcall. eff_steps.
  replace (isUndefined apiCall) with false by by destruct apiCall.
  rewrite !(getProp_defined apiCall) by done. eff_steps.
  rewrite Hurl, Hactions. cbn [negb].
  rewrite !(getProp_defined (member apiCall "actions")) by done. eff_steps.
  rewrite Hs, He, Hl. cbn [negb orb].
  destruct (apiOptionsFor _ _ _ _) as [apiOptions|e]; [|reflexivity].
  eff_steps. rewrite createLoadingAction_defined by done. by eff_steps.
Qed.

(** The descriptor-shape errors: a descriptor that fails one of the checks
    makes [apiMiddleware] throw before [next] is called. *)
Lemma apiMiddleware_malformed_throws config store next action apiCall log :
  getProp action API_CALL = Normal apiCall →
  isUndefined apiCall = false →
  validDescriptor apiCall = false →
  ∃ e, apiMiddleware config store next action log = (Throw e, log).
Proof.
  intros Hcall Hundef Hbad.
  unfold apiMiddleware. rewrite Hcall. eff_steps. rewrite Hundef.
  destruct (isNullish apiCall) eqn:Hdef.
  { destruct (getProp_nullish apiCall "url" Hdef) as [e ->]. eauto. }
  rewrite !(getProp_defined apiCall) by done. eff_steps.
  unfold validDescriptor in Hbad. rewrite Hdef in Hbad.
  destruct (isString (member apiCall "url")); cbn [negb]; [|by eexists].
  destruct (toBoolean (member apiCall "actions")) eqn:Hactions; cbn [negb]; [|by eexists].
  rewrite !(getProp_defined (member apiCall "actions")) by by apply truthy_defined.
  eff_steps.
  destruct (toBoolean (member (member apiCall "actions") "SUCCESS"));
    cbn [negb orb]; [|by eexists].
  destruct (toBoolean (member (member apiCall "actions") "ERROR"));
    cbn [negb orb]; [|by eexists].
  destruct (toBoolean (member (member apiCall "actions") "LOADING"));
    cbn [negb orb]; [done|by eexists].
Qed.

(** The fulfilment handler dispatches one success action. *)
Lemma settle_resolved next (actions meta response : JsVal) log :
  isNullish actions = false →
  ∃ successAction,
    createSuccessAction actions response meta = Normal successAction
    ∧ settle next actions meta (Resolved response) log
      = (Resolved (next successAction), (log ++ [successAction])%list).
Proof.
  intros Hdef. unfold createSuccessAction. rewrite !getProp_defined by done.
  eexists. split; [reflexivity|].
  unfold settle, then_, onFulfilled, createSuccessAction.
  rewrite !getProp_defined by done. by eff_steps.
Qed.

(** The rejection handler dispatches one error action when the rejection
    value has a [toString()] that returns. *)
Lemma settle_rejected next (actions meta error : JsVal) (s : string) log :
  isNullish actions = false →
  callToString error = Normal s →
  ∃ errorAction,
    createErrorAction actions error meta = Normal errorAction
    ∧ settle next actions meta (Rejected error) log
      = (Resolved (next errorAction), (log ++ [errorAction])%list).
Proof.
  intros Hdef Hstr. pose proof (callToString_defined _ _ Hstr) as Herr.
  unfold createErrorAction. rewrite !getProp_defined, Hstr by done.
  eexists. split; [reflexivity|].
  unfold settle, then_, onRejected, createErrorAction.
  rewrite !getProp_defined, Hstr by done. eff_steps.
  by destruct (toBoolean (member error "unauthorized")); eff_steps.
Qed.

(** C7: an action that carries nothing under [API_CALL] is handed to [next]
    as it is and the value [next] returns is returned; [next] is called that
    one time, so no lifecycle action is dispatched. *)
Theorem apiMiddleware_passes_through config store next action log :
  getProp action API_CALL = Normal JUndefined →
  apiMiddleware config store next action log
  = (Normal (Value (next action)), (log ++ [action])%list).
Proof.
  intros Hcall. unfold apiMiddleware. rewrite Hcall. by eff_steps.
Qed.

Lemma apiOptionsFor_token (tokenOf : Store → JsVal) store (options authenticated : JsVal)
    (t : string) :
  toBoolean authenticated = true →
  tokenOf store = JStr t →
  apiOptionsFor (Some tokenOf) store options authenticated
  = Normal (spread options
              ▹ prop "headers"
                  (JObj (spread (field (spread options) "headers")
                           ▹ prop "Authorization" (JStr ("Bearer " +:+ t))))).
Proof.
  intros Hauth Htoken. unfold apiOptionsFor. rewrite Hauth, Htoken. simpl.
  by rewrite !rest_empty.
Qed.

Lemma apiOptionsFor_unauthenticated (getAuthToken : option (Store → JsVal)) store
    (options authenticated : JsVal) :
  toBoolean authenticated = false →
  apiOptionsFor getAuthToken store options authenticated = Normal (spread options).
Proof.
  intros Hauth. unfold apiOptionsFor. rewrite Hauth. by rewrite rest_empty.
Qed.

(** C4, as amended: when the descriptor leaves [authenticated] out (it then
    defaults to [true]) or gives it a truthy value, and the configuration
    has a [getAuthToken] that yields the string [t], the options given to
    [callApi] have a [headers] whose [Authorization] is ["Bearer "] followed
    by [t]; every other header of the caller, and every other option, is
    kept. *)
Theorem apiMiddleware_attaches_bearer config store next action apiCall
    (tokenOf : Store → JsVal) (t : string) log :
  getProp action API_CALL = Normal apiCall →
  validDescriptor apiCall = true →
  toBoolean (withDefault (JBool true) (member apiCall "authenticated")) = true →
  getAuthToken config = Some tokenOf →
  tokenOf store = JStr t →
  ∃ req actions meta loadingAction options headers,
    apiMiddleware config store next action log
    = (Normal (Promise req actions meta), (log ++ [loadingAction])%list)
    ∧ req_options req = JObj options
    ∧ options !! "headers" = Some (JObj headers)
    ∧ headers !! "Authorization" = Some (JStr ("Bearer " +:+ t))
    ∧ (∀ k, k ≠ "Authorization" →
         headers !! k = spread (field (spread (member apiCall "options")) "headers") !! k)
    ∧ (∀ k, k ≠ "headers" → options !! k = spread (member apiCall "options") !! k).
Proof.
  intros Hcall Hvalid Hauth Hconfig Htoken.
  destruct (apiMiddleware_valid config store next action apiCall log Hcall Hvalid)
    as (loadingAction & _ & Hrun).
  rewrite Hconfig in Hrun.
  rewrite (apiOptionsFor_token tokenOf store _ _ t) in Hrun by done.
  do 6 eexists. split; [exact Hrun|]. simpl. split; [reflexivity|]. split_and!.
  - by read_literal.
  - by read_literal.
  - intros k Hk. by rewrite lookup_prop_ne.
  - intros k Hk. by rewrite lookup_prop_ne.
Qed.

(** C5, as amended: when the descriptor sets [authenticated] to [false],
    the middleware does not consult the configuration: two runs that differ
    only in the configuration do the same, and on a descriptor that passes
    the checks the options given to [callApi] are a copy of the caller's
    options, so they have an [Authorization] header exactly when the caller
    supplied one. *)
Theorem apiMiddleware_unauthenticated config1 config2 store1 store2 next action apiCall log :
  getProp action API_CALL = Normal apiCall →
  member apiCall "authenticated" = JBool false →
  apiMiddleware config1 store1 next action log = apiMiddleware config2 store2 next action log
  ∧ (validDescriptor apiCall = true →
     ∃ req actions meta loadingAction,
       apiMiddleware config1 store1 next action log
       = (Normal (Promise req actions meta), (log ++ [loadingAction])%list)
       ∧ req_options req = JObj (spread (member apiCall "options"))).
Proof.
  intros Hcall Hauth. split.
  - assert (isNullish apiCall = false) as Hdef
      by (destruct apiCall; done).
    unfold apiMiddleware. rewrite Hcall. eff_steps.
    destruct (isUndefined apiCall); [reflexivity|].
    rewrite !(getProp_defined apiCall) by done. eff_steps.
    rewrite Hauth. simpl withDefault.
    by rewrite !(apiOptionsFor_unauthenticated _ _ _ (JBool false)).
  - intros Hvalid.
    destruct (apiMiddleware_valid config1 store1 next action apiCall log Hcall Hvalid)
      as (loadingAction & _ & Hrun).
    rewrite Hauth in Hrun. simpl withDefault in Hrun.
    rewrite apiOptionsFor_unauthenticated in Hrun by done.
    do 4 eexists. split; [exact Hrun|reflexivity].
Qed.

(** The whole cycle on a descriptor that passes the checks: the loading
    action is dispatched first; when the transport resolves, or rejects
    with a value whose [toString()] returns, exactly one more action
    follows, a success action in the first case and an error action in the
    second. *)
Lemma lifecycle_of_valid_descriptor config store next action apiCall
    (apiOptions : gmap string JsVal) (transport : Settled) log :
  getProp action API_CALL = Normal apiCall →
  validDescriptor apiCall = true →
  apiOptionsFor (getAuthToken config) store (member apiCall "options")
    (withDefault (JBool true) (member apiCall "authenticated")) = Normal apiOptions →
  match transport with
  | Resolved _ => True
  | Rejected error => ∃ s, callToString error = Normal s
  end →
  ∃ req actions meta loadingAction final,
    apiMiddleware config store next action log
    = (Normal (Promise req actions meta), (log ++ [loadingAction])%list)
    ∧ createLoadingAction actions meta = Normal loadingAction
    ∧ match transport with
      | Resolved response => createSuccessAction actions response meta
      | Rejected error => createErrorAction actions error meta
      end = Normal final
    ∧ settle next actions meta transport (log ++ [loadingAction])%list
      = (Resolved (next final), (log ++ [loadingAction; final])%list).
Proof.
  intros Hcall Hvalid Hoptions Htransport.
  destruct (apiMiddleware_valid config store next action apiCall log Hcall Hvalid)
    as (loadingAction & Hloading & Hrun).
  rewrite Hoptions in Hrun.
  assert (isNullish (member apiCall "actions") = false) as Hactions.
  { apply validDescriptor_spec in Hvalid as (_ & _ & Htruthy & _).
    by apply truthy_defined. }
  destruct transport as [response|error].
  - destruct (settle_resolved next (member apiCall "actions") (member apiCall "meta")
                response (log ++ [loadingAction])%list Hactions)
      as (final & Hfinal & Hsettle).
    do 5 eexists. split; [exact Hrun|]. split; [exact Hloading|].
    split; [exact Hfinal|]. by rewrite Hsettle, <- app_assoc.
  - destruct Htransport as [s Hs].
    destruct (settle_rejected next (member apiCall "actions") (member apiCall "meta")
                error s (log ++ [loadingAction])%list Hactions Hs)
      as (final & Hfinal & Hsettle).
    do 5 eexists. split; [exact Hrun|]. split; [exact Hloading|].
    split; [exact Hfinal|]. by rewrite Hsettle, <- app_assoc.
Qed.

End MiddlewareProperties.

(** ** The interception function on the fixtures *)

(** The scenarios of the test suite of the middleware. *)
Example createApiActionSet_TEST_ACTION :
  createApiActionSet (JStr Fixtures.TEST_ACTION) = Normal Fixtures.TEST_API_ACTION_SET.
Proof. reflexivity. Qed.

Example invokes_LOADING :
  apiMiddleware Fixtures.prefs () Fixtures.next Fixtures.TEST_API_ACTION []
  = (Normal (Promise (Fixtures.request Fixtures.bearerOptions)
               Fixtures.TEST_API_ACTION_SET JUndefined),
     [Fixtures.loadingAction]).
Proof. reflexivity. Qed.

Example invokes_fetch_with_options :
  callApi_fetch (platform := Fixtures.scalars)
    (JStr "/test") JUndefined JUndefined Fixtures.bearerOptions
  = {| fetch_url := JStr "/test";
       fetch_params :=
         JObj (∅ ▹ prop "headers"
                     (JObj (∅ ▹ prop "Authorization" (JStr "Bearer test_token")))
                 ▹ prop "method" (JStr "GET")) |}.
Proof. reflexivity. Qed.

Example invokes_fetch_without_auth_options :
  apiMiddleware Fixtures.prefs () Fixtures.next
    (Fixtures.apiAction Fixtures.unauthenticated) []
  = (Normal (Promise (Fixtures.request (JObj ∅)) Fixtures.TEST_API_ACTION_SET JUndefined),
     [Fixtures.loadingAction])
  ∧ callApi_fetch (platform := Fixtures.scalars) (JStr "/test") JUndefined JUndefined (JObj ∅)
    = {| fetch_url := JStr "/test";
         fetch_params := JObj (∅ ▹ prop "method" (JStr "GET")) |}.
Proof. split; reflexivity. Qed.

Example invokes_SUCCESS :
  settle Fixtures.next Fixtures.TEST_API_ACTION_SET JUndefined
    (callApi_settle (Fixtures.respond 200 Fixtures.TEST_EXPECTED_RESPONSE))
    [Fixtures.loadingAction]
  = (Resolved Fixtures.successAction, [Fixtures.loadingAction; Fixtures.successAction]).
Proof. reflexivity. Qed.

Example invokes_ERROR :
  settle Fixtures.next Fixtures.TEST_API_ACTION_SET JUndefined
    (callApi_settle (Fixtures.respond 400 Fixtures.TEST_EXPECTED_RESPONSE))
    [Fixtures.loadingAction]
  = (Resolved Fixtures.errorAction, [Fixtures.loadingAction; Fixtures.errorAction]).
Proof. reflexivity. Qed.

Example throws_if_url_is_undefined :
  ∃ e, apiMiddleware Fixtures.prefs () Fixtures.next
         (Fixtures.apiAction (JObj (∅ ▹ prop "body" (JObj ∅) ▹ prop "actions" (JObj ∅)))) []
       = (Throw e, []).
Proof. eexists. reflexivity. Qed.

Example throws_if_actions_are_undefined :
  ∃ e, apiMiddleware Fixtures.prefs () Fixtures.next
         (Fixtures.apiAction (JObj (∅ ▹ prop "url" (JStr "test") ▹ prop "body" (JObj ∅)))) []
       = (Throw e, []).
Proof. eexists. reflexivity. Qed.

Example throws_if_action_group_is_incorrect :
  ∃ e, apiMiddleware Fixtures.prefs () Fixtures.next
         (Fixtures.apiAction (JObj (∅ ▹ prop "url" (JStr "test") ▹ prop "body" (JObj ∅)
                                      ▹ prop "actions" (JObj ∅)))) []
       = (Throw e, []).
Proof. eexists. reflexivity. Qed.

Lemma apiMiddleware_passes_through_witness :
  apiMiddleware Fixtures.prefs () Fixtures.next Fixtures.createTestAction []
  = (Normal (Value Fixtures.createTestAction), [Fixtures.createTestAction]).
Proof.
  apply (apiMiddleware_passes_through Fixtures.prefs () Fixtures.next
           Fixtures.createTestAction []).
  reflexivity.
Defined.

Lemma apiMiddleware_attaches_bearer_witness :
  ∃ req actions meta loadingAction options headers,
    apiMiddleware Fixtures.prefs () Fixtures.next (Fixtures.apiAction Fixtures.withOptions) []
    = (Normal (Promise req actions meta), [loadingAction])
    ∧ req_options req = JObj options
    ∧ options !! "headers" = Some (JObj headers)
    ∧ headers !! "Authorization" = Some (JStr "Bearer test_token")
    ∧ headers !! "Accept" = Some (JStr "application/json").
Proof.
  destruct (apiMiddleware_attaches_bearer Fixtures.prefs () Fixtures.next
              (Fixtures.apiAction Fixtures.withOptions) Fixtures.withOptions
              Fixtures.getTestToken "test_token" []
              eq_refl eq_refl eq_refl eq_refl eq_refl)
    as (req & actions & meta & loadingAction & options & headers
        & Hrun & Hoptions & Hheaders & Hbearer & Hkept & _).
  exists req, actions, meta, loadingAction, options, headers.
  split_and!; try assumption.
  rewrite Hkept by discriminate. reflexivity.
Defined.

(** C4 as stated fails: an [authenticated] that is [null], [0] or [''] is
    not [false], yet it is falsy, and only [undefined] takes the default: the
    token source is not asked and the options given to [callApi] have no
    [Authorization] header. *)
Lemma apiMiddleware_falsy_authenticated_no_header :
  validDescriptor Fixtures.authenticatedNull = true
  ∧ member Fixtures.authenticatedNull "authenticated" = JNull
  ∧ Fixtures.getTestToken () = JStr "test_token"
  ∧ apiMiddleware Fixtures.prefs () Fixtures.next
      (Fixtures.apiAction Fixtures.authenticatedNull) []
    = (Normal (Promise (Fixtures.request (JObj ∅)) Fixtures.TEST_API_ACTION_SET JUndefined),
       [Fixtures.loadingAction])
  ∧ getProp (JObj ∅) "headers" = Normal JUndefined
  ∧ apiMiddleware Fixtures.prefs () Fixtures.next
      (Fixtures.apiAction Fixtures.authenticatedZero) []
    = (Normal (Promise (Fixtures.request (JObj ∅)) Fixtures.TEST_API_ACTION_SET JUndefined),
       [Fixtures.loadingAction])
  ∧ apiMiddleware Fixtures.prefs () Fixtures.next
      (Fixtures.apiAction Fixtures.authenticatedEmpty) []
    = (Normal (Promise (Fixtures.request (JObj ∅)) Fixtures.TEST_API_ACTION_SET JUndefined),
       [Fixtures.loadingAction]).
Proof. split_and!; reflexivity. Qed.

Lemma apiMiddleware_unauthenticated_witness :
  apiMiddleware Fixtures.prefs () Fixtures.next (Fixtures.apiAction Fixtures.unauthenticated) []
  = apiMiddleware defaultConfig () Fixtures.next (Fixtures.apiAction Fixtures.unauthenticated) []
  ∧ ∃ req actions meta loadingAction,
      apiMiddleware Fixtures.prefs () Fixtures.next
        (Fixtures.apiAction Fixtures.unauthenticated) []
      = (Normal (Promise req actions meta), [loadingAction])
      ∧ req_options req = JObj ∅.
Proof.
  destruct (apiMiddleware_unauthenticated Fixtures.prefs defaultConfig () () Fixtures.next
              (Fixtures.apiAction Fixtures.unauthenticated) Fixtures.unauthenticated []
              eq_refl eq_refl)
    as [Hsame Hcopy].
  split; [exact Hsame|]. exact (Hcopy eq_refl).
Defined.

(** C5 as stated fails: with [authenticated: false] and options of the
    caller that have an [Authorization] header, the options given to
    [callApi] have that header. *)
Lemma apiMiddleware_unauthenticated_keeps_caller_header :
  validDescriptor Fixtures.unauthenticatedBasic = true
  ∧ member Fixtures.unauthenticatedBasic "authenticated" = JBool false
  ∧ apiMiddleware Fixtures.prefs () Fixtures.next
      (Fixtures.apiAction Fixtures.unauthenticatedBasic) []
    = (Normal (Promise (Fixtures.request Fixtures.basicAuth)
                 Fixtures.TEST_API_ACTION_SET JUndefined),
       [Fixtures.loadingAction])
  ∧ (headers ← getProp Fixtures.basicAuth "headers"; getProp headers "Authorization")
    = Normal (JStr "Basic dXNlcjpwdw==").
Proof. split_and!; reflexivity. Qed.

(** C1 fails on the code.  The descriptor of the test suite passes the
    checks and its loading action is dispatched; the server answers 500
    with the JSON body [null], so [callApi] rejects with [null]; the
    rejection handler then throws on [error.unauthorized]: the promise of
    the middleware is rejected and the log still holds the loading action
    alone, neither a success nor an error action having followed. *)
Theorem lifecycle_null_error_body_dispatches_neither :
  validDescriptor (Fixtures.descriptor id) = true
  ∧ apiMiddleware Fixtures.prefs () Fixtures.next Fixtures.TEST_API_ACTION []
    = (Normal (Promise (Fixtures.request Fixtures.bearerOptions)
                 Fixtures.TEST_API_ACTION_SET JUndefined),
       [Fixtures.loadingAction])
  ∧ callApi_settle (Fixtures.respond 500 JNull) = Rejected JNull
  ∧ settle Fixtures.next Fixtures.TEST_API_ACTION_SET JUndefined
      (callApi_settle (Fixtures.respond 500 JNull)) [Fixtures.loadingAction]
    = (Rejected (newTypeError "Cannot read property unauthorized"),
       [Fixtures.loadingAction]).
Proof. split_and!; reflexivity. Qed.

(** C2 fails on the code in its second half.  A transport rejection whose
    value is [null] (here a 404 with the JSON body [null]) makes the
    rejection handler throw a TypeError before it builds the error action:
    nothing is dispatched and the promise of the middleware is rejected. *)
Theorem onRejected_null_throws :
  callApi_settle (Fixtures.respond 404 JNull) = Rejected JNull
  ∧ onRejected Fixtures.next Fixtures.TEST_API_ACTION_SET Fixtures.meta JNull []
    = (Throw (newTypeError "Cannot read property unauthorized"), [])
  ∧ settle Fixtures.next Fixtures.TEST_API_ACTION_SET Fixtures.meta
      (callApi_settle (Fixtures.respond 404 JNull)) []
    = (Rejected (newTypeError "Cannot read property unauthorized"), []).
Proof. split_and!; reflexivity. Qed.

(** * Further properties *)

(** ** Type strings of action sets *)

Lemma list_ascii_of_string_app (s t : string) :
  String.list_ascii_of_string (s +:+ t)
  = (String.list_ascii_of_string s ++ String.list_ascii_of_string t)%list.
Proof. induction s as [|c s IH]; simpl; [done|by rewrite IH]. Qed.

Lemma list_ascii_of_string_inj (s t : string) :
  String.list_ascii_of_string s = String.list_ascii_of_string t → s = t.
Proof.
  intros Heq. rewrite <- (String.string_of_list_ascii_of_string s),
    <- (String.string_of_list_ascii_of_string t). by rewrite Heq.
Qed.

(** Two strings with the same suffix appended are equal only if they are. *)
Lemma append_suffix_inj (s1 s2 t : string) : s1 +:+ t = s2 +:+ t → s1 = s2.
Proof.
  intros Heq. apply list_ascii_of_string_inj.
  apply (f_equal String.list_ascii_of_string) in Heq.
  rewrite !list_ascii_of_string_app in Heq. by apply app_inv_tail in Heq.
Qed.

(** Refutes [s1 +:+ t1 = s2 +:+ t2] for literal suffixes that end differently. *)
Ltac suffix_clash H :=
  apply (f_equal String.list_ascii_of_string) in H;
  rewrite !list_ascii_of_string_app in H;
  apply (f_equal (@List.rev Ascii.ascii)) in H;
  rewrite !List.rev_app_distr in H; simpl in H; discriminate H.

Lemma append_suffix_nonempty (s t : string) : t ≠ "" → s +:+ t ≠ "".
Proof. intros Ht. destruct s; [done|discriminate]. Qed.

(** The type strings of action sets never collide: a type of the set for
    [n1] equals a type of the set for [n2] only when the base names are the
    same and the phase is the same. *)
Theorem createApiActionSet_types_injective (n1 n2 p1 p2 : string) (set1 set2 : JsVal) :
  createApiActionSet (JStr n1) = Normal set1 →
  createApiActionSet (JStr n2) = Normal set2 →
  p1 ∈ [apiActionType.LOADING; apiActionType.SUCCESS; apiActionType.ERROR] →
  p2 ∈ [apiActionType.LOADING; apiActionType.SUCCESS; apiActionType.ERROR] →
  member set1 p1 = member set2 p2 →
  n1 = n2 ∧ p1 = p2.
Proof.
  intros [= <-] [= <-] Hp1 Hp2.
  repeat (apply elem_of_cons in Hp1 as [-> | Hp1]);
    [| | |by apply elem_of_nil in Hp1];
    (repeat (apply elem_of_cons in Hp2 as [-> | Hp2]);
       [| | |by apply elem_of_nil in Hp2]);
    rewrite !member_obj; read_literal; simpl; intros [= Heq];
    first [ split; [by apply append_suffix_inj in Heq|done] | suffix_clash Heq ].
Qed.

Lemma createApiActionSet_types_injective_witness :
  member Fixtures.TEST_API_ACTION_SET "SUCCESS" = JStr "TEST_ACTION_SUCCESS"
  ∧ "TEST_ACTION" = "TEST_ACTION" ∧ apiActionType.SUCCESS = apiActionType.SUCCESS.
Proof.
  split; [reflexivity|].
  apply (createApiActionSet_types_injective "TEST_ACTION" "TEST_ACTION"
           apiActionType.SUCCESS apiActionType.SUCCESS
           Fixtures.TEST_API_ACTION_SET Fixtures.TEST_API_ACTION_SET
           eq_refl eq_refl).
  - apply list_elem_of_further, list_elem_of_here.
  - apply list_elem_of_further, list_elem_of_here.
  - reflexivity.
Defined.

(** An action set made by [createApiActionSet] always passes the checks of
    the middleware: a descriptor with a string [url] and such a set as its
    [actions] is a valid descriptor, whatever the base name. *)
Theorem createApiActionSet_passes_checks (actionName apiCall set : JsVal) :
  createApiActionSet actionName = Normal set →
  isString (member apiCall "url") = true →
  member apiCall "actions" = set →
  validDescriptor apiCall = true.
Proof.
  unfold createApiActionSet, template_underscore.
  destruct (ToString actionName) as [s|e]; simpl; [|discriminate].
  intros [= <-] Hurl Hactions. unfold validDescriptor.
  assert (isNullish apiCall = false) as ->.
  { destruct apiCall; try done; discriminate Hactions. }
  rewrite Hurl, Hactions. rewrite !member_obj. read_literal. simpl.
  rewrite !andb_true_iff, !negb_true_iff, !bool_decide_eq_false.
  split_and!; try done; by apply append_suffix_nonempty.
Qed.

Lemma createApiActionSet_passes_checks_witness :
  validDescriptor (Fixtures.descriptor id) = true.
Proof.
  apply (createApiActionSet_passes_checks (JStr Fixtures.TEST_ACTION)
           (Fixtures.descriptor id) Fixtures.TEST_API_ACTION_SET);
    reflexivity.
Defined.

(** ** The lifecycle action constructors *)

Lemma getProp_rest_Some (o : gmap string JsVal) (meta : JsVal) (k : string) (v : JsVal) :
  spread meta !! k = Some v → getProp (JObj (o ▹ rest meta)) k = Normal v.
Proof. intros Hk. by rewrite getProp_obj, lookup_rest, Hk. Qed.

(** Every property of the metadata is in every lifecycle action, with the
    value the metadata gives it, also when it has the name of a field the
    constructor sets: the metadata is spread last.  This holds for the three
    constructors of both variants (for the error constructors, when the
    [toString()] of the error returns). *)
Theorem lifecycle_actions_carry_meta (actions type response error meta : JsVal)
    (k : string) (v : JsVal) (s : string) :
  spread meta !! k = Some v →
  isNullish actions = false →
  callToString error = Normal s →
  (∃ m, createLoadingAction actions meta = Normal m ∧ getProp m k = Normal v)
  ∧ (∃ m, createSuccessAction actions response meta = Normal m ∧ getProp m k = Normal v)
  ∧ (∃ m, createErrorAction actions error meta = Normal m ∧ getProp m k = Normal v)
  ∧ (∃ m, Legacy.createLoadingAction type meta = Normal m ∧ getProp m k = Normal v)
  ∧ (∃ m, Legacy.createSuccessAction type response meta = Normal m ∧ getProp m k = Normal v)
  ∧ (∃ m, Legacy.createErrorAction type error meta = Normal m ∧ getProp m k = Normal v).
Proof.
  intros Hk Hactions Herror.
  unfold createLoadingAction, createSuccessAction, createErrorAction,
    Legacy.createLoadingAction, Legacy.createSuccessAction, Legacy.createErrorAction.
  rewrite !(getProp_defined actions), Herror by done.
  split_and!; (eexists; split; [reflexivity|by apply getProp_rest_Some]).
Qed.

Lemma lifecycle_actions_carry_meta_witness :
  (∃ m, createLoadingAction Fixtures.TEST_API_ACTION_SET Fixtures.meta = Normal m
     ∧ getProp m "firstName" = Normal (JStr "John"))
  ∧ (∃ m, createErrorAction Fixtures.TEST_API_ACTION_SET Fixtures.TEST_EXPECTED_RESPONSE
            Fixtures.masking = Normal m
       ∧ getProp m "error" = Normal (JStr "masked")).
Proof.
  split.
  - apply (lifecycle_actions_carry_meta Fixtures.TEST_API_ACTION_SET
             (JStr "TEST_ACTION_LOADING") JNull Fixtures.TEST_EXPECTED_RESPONSE
             Fixtures.meta "firstName" (JStr "John") "[object Object]");
      reflexivity.
  - apply (lifecycle_actions_carry_meta Fixtures.TEST_API_ACTION_SET
             (JStr "TEST_ACTION_ERROR") JNull Fixtures.TEST_EXPECTED_RESPONSE
             Fixtures.masking "error" (JStr "masked") "[object Object]");
      reflexivity.
Defined.

(** Decides a lookup in a literal by cases on the name looked up. *)
Ltac lookup_cases :=
  unfold prop; rewrite ?lookup_rest, ?lookup_insert, ?lookup_empty;
  repeat case_decide; simplify_eq; try done.

(** The two variants of the constructors build the same action apart from
    [actionName]: a constructor given the action set agrees, on every other
    property, with the older constructor given the type of the set for its
    phase; and the error constructors throw on the same errors. *)
Theorem constructors_agree_with_legacy (actions response error meta : JsVal) (k : string) :
  isNullish actions = false →
  k ≠ "actionName" →
  (∃ m m', createLoadingAction actions meta = Normal m
     ∧ Legacy.createLoadingAction (member actions "LOADING") meta = Normal m'
     ∧ member m k = member m' k)
  ∧ (∃ m m', createSuccessAction actions response meta = Normal m
       ∧ Legacy.createSuccessAction (member actions "SUCCESS") response meta = Normal m'
       ∧ member m k = member m' k)
  ∧ match createErrorAction actions error meta,
          Legacy.createErrorAction (member actions "ERROR") error meta with
    | Normal m, Normal m' => member m k = member m' k
    | Throw e, Throw e' => e = e'
    | _, _ => False
    end.
Proof.
  intros Hactions Hk.
  unfold createLoadingAction, createSuccessAction, createErrorAction,
    Legacy.createLoadingAction, Legacy.createSuccessAction, Legacy.createErrorAction.
  rewrite !(getProp_defined actions) by done.
  split_and!.
  - do 2 eexists. split; [reflexivity|]. split; [reflexivity|].
    rewrite !member_obj. f_equal. lookup_cases.
  - do 2 eexists. split; [reflexivity|]. split; [reflexivity|].
    rewrite !member_obj. f_equal. lookup_cases.
  - destruct (callToString error) as [s|e]; simpl; [|done].
    rewrite !member_obj. f_equal. lookup_cases.
Qed.

Lemma constructors_agree_with_legacy_witness :
  ∃ m m', createSuccessAction Fixtures.TEST_API_ACTION_SET
            Fixtures.TEST_EXPECTED_RESPONSE Fixtures.meta = Normal m
    ∧ Legacy.createSuccessAction (JStr "TEST_ACTION_SUCCESS")
        Fixtures.TEST_EXPECTED_RESPONSE Fixtures.meta = Normal m'
    ∧ member m "response" = member m' "response".
Proof.
  destruct (constructors_agree_with_legacy Fixtures.TEST_API_ACTION_SET
              Fixtures.TEST_EXPECTED_RESPONSE Fixtures.TEST_EXPECTED_RESPONSE
              Fixtures.meta "response" eq_refl)
    as (_ & Hsuccess & _); [discriminate|exact Hsuccess].
Defined.

(** ** What the interception function dispatches *)

Lemma getProp_nullish_TypeError (v : JsVal) (k : string) :
  isNullish v = true →
  getProp v k = Throw (newTypeError ("Cannot read property " +:+ k)).
Proof. intros Hv. unfold getProp. by rewrite Hv. Qed.

Section DispatchProperties.

Context {Store : Type}.
Implicit Types (config : Config Store) (store : Store) (next : JsVal → JsVal).
Implicit Types (action apiCall : JsVal) (log : list JsVal).

(** The descriptor-shape errors, in the order of the checks: a [null]
    descriptor is a TypeError of the destructuring; then come the error for
    a [url] that is not a string, the one for a falsy [actions] and the one
    for an action set with a falsy [SUCCESS], [ERROR] or [LOADING].  In each
    case [next] has not been called. *)
Theorem apiMiddleware_shape_errors config store next action apiCall log :
  getProp action API_CALL = Normal apiCall →
  isUndefined apiCall = false →
  (isNullish apiCall = true →
   ∃ message, apiMiddleware config store next action log
              = (Throw (newTypeError message), log))
  ∧ (isNullish apiCall = false →
     isString (member apiCall "url") = false →
     apiMiddleware config store next action log
     = (Throw (newError "Api call action does not contain url string"), log))
  ∧ (isNullish apiCall = false →
     isString (member apiCall "url") = true →
     toBoolean (member apiCall "actions") = false →
     apiMiddleware config store next action log
     = (Throw (newError "Api call action does not contain action group"), log))
  ∧ (isNullish apiCall = false →
     isString (member apiCall "url") = true →
     toBoolean (member apiCall "actions") = true →
     toBoolean (member (member apiCall "actions") "SUCCESS")
     && toBoolean (member (member apiCall "actions") "ERROR")
     && toBoolean (member (member apiCall "actions") "LOADING") = false →
     apiMiddleware config store next action log
     = (Throw (newError ("Api call does not contain a correct action group. " +:+
                         "Please use createApiActionSet to create actions.")), log)).
Proof.
  intros Hcall Hundef.
  unfold apiMiddleware. rewrite Hcall. eff_steps. rewrite Hundef. cbv iota zeta.
  split_and!.
  - intros Hnull. rewrite (getProp_nullish_TypeError apiCall "url") by done.
    eff_steps. eauto.
  - intros Hdef Hurl. rewrite !(getProp_defined apiCall) by done. eff_steps.
    by rewrite Hurl.
  - intros Hdef Hurl Hactions. rewrite !(getProp_defined apiCall) by done. eff_steps.
    by rewrite Hurl, Hactions.
  - intros Hdef Hurl Hactions Hset. rewrite !(getProp_defined apiCall) by done. eff_steps.
    rewrite Hurl, Hactions. cbn [negb].
    rewrite !(getProp_defined (member apiCall "actions")) by by apply truthy_defined.
    eff_steps.
    destruct (toBoolean (member (member apiCall "actions") "SUCCESS"));
      destruct (toBoolean (member (member apiCall "actions") "ERROR"));
      destruct (toBoolean (member (member apiCall "actions") "LOADING"));
      try discriminate Hset; reflexivity.
Qed.

(** Whatever the action, the synchronous part of the middleware calls
    [next] at most once and never before a throw: when it throws, the log
    is as it was; when it returns a value, that is the value of
    [next(action)] and the log has gained the action; when it returns the
    promise, the descriptor passed the checks and the log has gained the
    loading action of the descriptor. *)
Theorem apiMiddleware_throw_dispatches_nothing config store next action log :
  match apiMiddleware config store next action log with
  | (Throw _, log') => log' = log
  | (Normal (Value v), log') => v = next action ∧ log' = (log ++ [action])%list
  | (Normal (Promise req actions meta), log') =>
      validDescriptor (member action API_CALL) = true
      ∧ ∃ loadingAction,
          createLoadingAction actions meta = Normal loadingAction
          ∧ log' = (log ++ [loadingAction])%list
  end.
Proof.
  destruct (getProp action API_CALL) as [apiCall|e] eqn:Hcall.
  2: { unfold apiMiddleware. rewrite Hcall. by eff_steps. }
  assert (member action API_CALL = apiCall) as ->.
  { unfold getProp in Hcall. destruct (isNullish action); by simplify_eq. }
  destruct (isUndefined apiCall) eqn:Hundef.
  { unfold apiMiddleware. rewrite Hcall. eff_steps. rewrite Hundef. by eff_steps. }
  destruct (validDescriptor apiCall) eqn:Hvalid.
  - destruct (apiMiddleware_valid config store next action apiCall log Hcall Hvalid)
      as (loadingAction & Hloading & ->).
    destruct (apiOptionsFor _ _ _ _); [|done]. eauto.
  - destruct (apiMiddleware_malformed_throws config store next action apiCall log
                Hcall Hundef Hvalid) as [e ->]. done.
Qed.

(** Whatever the transport did, the promise of the middleware is fulfilled
    exactly when one action was dispatched, and then with the value [next]
    returned for it; it is rejected exactly when the handler threw, and then
    nothing was dispatched. *)
Theorem settle_fulfils_iff_dispatched next (actions meta : JsVal) (transport : Settled) log :
  match settle next actions meta transport log with
  | (Resolved v, log') => ∃ a, v = next a ∧ log' = (log ++ [a])%list
  | (Rejected _, log') => log' = log
  end.
Proof.
  unfold settle, then_. destruct transport as [response|error].
  - unfold onFulfilled.
    destruct (createSuccessAction actions response meta) as [a|e]; eff_steps;
      unfold call; simpl; eauto.
  - unfold onRejected.
    destruct (getProp error "unauthorized") as [unauthorized|e]; eff_steps; [|done].
    destruct (toBoolean unauthorized); eff_steps;
      destruct (createErrorAction actions error meta) as [a|e]; eff_steps;
      unfold call; simpl; eauto.
Qed.

End DispatchProperties.

Lemma apiMiddleware_shape_errors_witness :
  (∃ message,
     apiMiddleware Fixtures.prefs () Fixtures.next (Fixtures.apiAction JNull) []
     = (Throw (newTypeError message), []))
  ∧ apiMiddleware Fixtures.prefs () Fixtures.next
      (Fixtures.apiAction (JObj (∅ ▹ prop "url" (JNum 7)))) []
    = (Throw (newError "Api call action does not contain url string"), [])
  ∧ apiMiddleware Fixtures.prefs () Fixtures.next
      (Fixtures.apiAction (JObj (∅ ▹ prop "url" (JStr "test")))) []
    = (Throw (newError "Api call action does not contain action group"), [])
  ∧ apiMiddleware Fixtures.prefs () Fixtures.next
      (Fixtures.apiAction (JObj (∅ ▹ prop "url" (JStr "test") ▹ prop "actions" (JObj ∅)))) []
    = (Throw (newError ("Api call does not contain a correct action group. " +:+
                        "Please use createApiActionSet to create actions.")), []).
Proof.
  split_and!.
  - apply (apiMiddleware_shape_errors Fixtures.prefs () Fixtures.next
             (Fixtures.apiAction JNull) JNull [] eq_refl eq_refl).
    reflexivity.
  - apply (apiMiddleware_shape_errors Fixtures.prefs () Fixtures.next
             (Fixtures.apiAction (JObj (∅ ▹ prop "url" (JNum 7))))
             (JObj (∅ ▹ prop "url" (JNum 7))) [] eq_refl eq_refl);
      reflexivity.
  - apply (apiMiddleware_shape_errors Fixtures.prefs () Fixtures.next
             (Fixtures.apiAction (JObj (∅ ▹ prop "url" (JStr "test"))))
             (JObj (∅ ▹ prop "url" (JStr "test"))) [] eq_refl eq_refl);
      reflexivity.
  - apply (apiMiddleware_shape_errors Fixtures.prefs () Fixtures.next
             (Fixtures.apiAction
                (JObj (∅ ▹ prop "url" (JStr "test") ▹ prop "actions" (JObj ∅))))
             (JObj (∅ ▹ prop "url" (JStr "test") ▹ prop "actions" (JObj ∅)))
             [] eq_refl eq_refl);
      reflexivity.
Defined.

Lemma lifecycle_of_valid_descriptor_witness :
  ∃ req actions meta loadingAction final,
    apiMiddleware Fixtures.prefs () Fixtures.next Fixtures.TEST_API_ACTION []
    = (Normal (Promise req actions meta), [loadingAction])
    ∧ createLoadingAction actions meta = Normal loadingAction
    ∧ createErrorAction actions Fixtures.TEST_EXPECTED_RESPONSE meta = Normal final
    ∧ settle Fixtures.next actions meta (Rejected Fixtures.TEST_EXPECTED_RESPONSE)
        [loadingAction]
      = (Resolved (Fixtures.next final), [loadingAction; final]).
Proof.
  apply (lifecycle_of_valid_descriptor Fixtures.prefs () Fixtures.next
           Fixtures.TEST_API_ACTION (Fixtures.descriptor id)
           (spread Fixtures.bearerOptions) (Rejected Fixtures.TEST_EXPECTED_RESPONSE) []
           eq_refl eq_refl eq_refl).
  exists "[object Object]". reflexivity.
Defined.

(** ** What the transport helper resolves and rejects with *)

(** The promise of [callApi] resolves only for a response with a status in
    [200, 300) whose body parses, and then with the parsed body: a failure
    of [fetch], any other status and a body that is not JSON all reject. *)
Theorem callApi_resolves_iff (fetched : Fetched) (v : JsVal) :
  callApi_settle fetched = Resolved v
  ↔ ∃ response, fetched = Responded response
      ∧ 200 ≤ status response < 300
      ∧ json response = Resolved v.
Proof.
  unfold callApi_settle. split.
  - destruct fetched as [response|e]; [|discriminate].
    destruct ((200 <=? status response)%Z && (status response <? 300)%Z) eqn:Hin.
    + apply andb_true_iff in Hin as [Hlo%Z.leb_le Hhi%Z.ltb_lt].
      unfold handleSuccessfulResponse. intros Hjson. by exists response.
    + destruct (status response =? 401)%Z; [discriminate|].
      unfold handleErrorResponse. by destruct (json response).
  - intros (response & -> & [Hlo%Z.leb_le Hhi%Z.ltb_lt] & Hjson).
    by rewrite Hlo, Hhi.
Qed.

Lemma callApi_resolves_iff_witness :
  callApi_settle (Fixtures.respond 299 Fixtures.TEST_EXPECTED_RESPONSE)
  = Resolved Fixtures.TEST_EXPECTED_RESPONSE.
Proof.
  apply (callApi_resolves_iff (Fixtures.respond 299 Fixtures.TEST_EXPECTED_RESPONSE)
           Fixtures.TEST_EXPECTED_RESPONSE).
  eexists. split; [reflexivity|]. split; [simpl; lia|reflexivity].
Defined.

(** Failures pass through [callApi] as they are: when [fetch] rejects, and
    when the body of a response with a status other than 401 cannot be
    parsed, also one with a status in [200, 300), the promise of [callApi]
    rejects with the very error. *)
Theorem callApi_rejects_with_cause (e : JsVal) :
  callApi_settle (Failed e) = Rejected e
  ∧ ∀ response, json response = Rejected e → status response ≠ 401 →
      callApi_settle (Responded response) = Rejected e.
Proof.
  split; [reflexivity|]. intros response Hjson H401%Z.eqb_neq.
  unfold callApi_settle, handleSuccessfulResponse, handleErrorResponse.
  rewrite H401, Hjson. by destruct (_ && _).
Qed.

Lemma callApi_rejects_with_cause_witness :
  callApi_settle
    (Responded {| status := 200; json := Rejected (JErr "SyntaxError" "Unexpected token" ∅) |})
  = Rejected (JErr "SyntaxError" "Unexpected token" ∅).
Proof.
  apply (callApi_rejects_with_cause (JErr "SyntaxError" "Unexpected token" ∅));
    [reflexivity|discriminate].
Defined.

(** A 401 ends as one error action, whatever the body of the response: its
    [error] is ["Error: 401 - Unauthorized"] and its [rawError] has
    [unauthorized] set to [true] (when the metadata does not overwrite
    them), and the promise of the middleware is fulfilled. *)
Theorem unauthorized_error_action (response : Response) (next : JsVal → JsVal)
    (actions meta : JsVal) (log : list JsVal) :
  status response = 401 →
  isNullish actions = false →
  ∃ errorAction,
    settle next actions meta (callApi_settle (Responded response)) log
    = (Resolved (next errorAction), (log ++ [errorAction])%list)
    ∧ (spread meta !! "error" = None →
       getProp errorAction "error" = Normal (JStr "Error: 401 - Unauthorized"))
    ∧ (spread meta !! "rawError" = None →
       ∃ raw, getProp errorAction "rawError" = Normal raw
         ∧ getProp raw "unauthorized" = Normal (JBool true)).
Proof.
  intros H401 Hactions. unfold callApi_settle. rewrite H401. simpl.
  unfold handleUnauthorizedResponse.
  destruct (settle_rejected next actions meta
              (setProp (newError "401 - Unauthorized") "unauthorized" (JBool true))
              "Error: 401 - Unauthorized" log Hactions eq_refl)
    as (errorAction & Hbuilt & Hsettle).
  exists errorAction. split; [exact Hsettle|].
  unfold createErrorAction in Hbuilt. rewrite !getProp_defined in Hbuilt by done.
  simpl in Hbuilt. injection Hbuilt as <-.
  split.
  - apply errorAction_fields_named.
  - intros Hfree. eexists. split; [by apply errorAction_fields_named|reflexivity].
Qed.

Lemma unauthorized_error_action_witness :
  ∃ errorAction,
    settle Fixtures.next Fixtures.TEST_API_ACTION_SET Fixtures.meta
      (callApi_settle (Fixtures.respond 401 JNull)) []
    = (Resolved (Fixtures.next errorAction), [errorAction])
    ∧ getProp errorAction "error" = Normal (JStr "Error: 401 - Unauthorized").
Proof.
  destruct (unauthorized_error_action {| status := 401; json := Resolved JNull |}
              Fixtures.next Fixtures.TEST_API_ACTION_SET Fixtures.meta []
              eq_refl eq_refl)
    as (errorAction & Hsettle & Herror & _).
  exists errorAction. split; [exact Hsettle|]. apply Herror. reflexivity.
Defined.

(** [callApi] forwards what it is given: every option of the caller other
    than [method], [body] and [headers] reaches [fetch] as it is, whatever
    the method, and so does every header other than ['Content-Type']. *)
Theorem callApi_fetch_forwards {platform : Platform} (url body method : JsVal)
    (options : gmap string JsVal) (k : string) :
  ∃ params,
    callApi_fetch url body method (JObj options)
    = {| fetch_url := url; fetch_params := JObj params |}
    ∧ (k ≠ "method" → k ≠ "body" → k ≠ "headers" → params !! k = options !! k)
    ∧ (k ≠ "Content-Type" →
       ∀ headers v, options !! "headers" = Some (JObj headers) → headers !! k = Some v →
         ∃ sent, params !! "headers" = Some (JObj sent) ∧ sent !! k = Some v).
Proof.
  unfold callApi_fetch. simpl withDefault.
  destruct (strictEqStr (withDefault (JStr "GET") method) "POST").
  - eexists. split; [reflexivity|]. split.
    + intros Hm Hb Hh. rewrite !lookup_prop_ne by done. by rewrite rest_empty.
    + intros Hk headers v Hheaders Hv. eexists. split; [by read_literal|].
      rewrite lookup_prop_ne by done. rewrite lookup_rest, lookup_empty.
      unfold field. rewrite member_obj. read_literal.
      rewrite rest_empty. simpl spread. rewrite Hheaders. simpl. by rewrite Hv.
  - eexists. split; [reflexivity|]. rewrite rest_empty. simpl spread. split.
    + intros Hm Hb Hh. by rewrite lookup_prop_ne.
    + intros Hk headers v Hheaders Hv. exists headers. split; [|done].
      by rewrite lookup_prop_ne.
Qed.

Lemma callApi_fetch_forwards_witness :
  ∃ params sent,
    callApi_fetch (platform := Fixtures.scalars) (JStr "/test") (JNum 7) (JStr "POST")
      (JObj (spread Fixtures.acceptJson ▹ prop "mode" (JStr "cors")))
    = {| fetch_url := JStr "/test"; fetch_params := JObj params |}
    ∧ params !! "mode" = Some (JStr "cors")
    ∧ params !! "headers" = Some (JObj sent)
    ∧ sent !! "Accept" = Some (JStr "application/json").
Proof.
  destruct (callApi_fetch_forwards (platform := Fixtures.scalars)
              (JStr "/test") (JNum 7) (JStr "POST")
              (spread Fixtures.acceptJson ▹ prop "mode" (JStr "cors")) "mode")
    as (params & Hcall & Hoption & _).
  destruct (callApi_fetch_forwards (platform := Fixtures.scalars)
              (JStr "/test") (JNum 7) (JStr "POST")
              (spread Fixtures.acceptJson ▹ prop "mode" (JStr "cors")) "Accept")
    as (params' & Hcall' & _ & Hheader).
  rewrite Hcall in Hcall'. injection Hcall' as <-.
  destruct (Hheader ltac:(discriminate) _ (JStr "application/json") eq_refl eq_refl)
    as (sent & Hsent & Haccept).
  exists params, sent. split; [exact Hcall|]. split; [|by split].
  rewrite Hoption by discriminate. reflexivity.
Defined.

(** ** The authorization header *)

Section AuthorizationProperties.

Context {Store : Type}.
Implicit Types (config : Config Store) (store : Store) (next : JsVal → JsVal).
Implicit Types (action apiCall : JsVal) (log : list JsVal).

Lemma apiOptionsFor_converted (tokenOf : Store → JsVal) store (options authenticated : JsVal)
    (s : string) :
  toBoolean authenticated = true →
  ToString (tokenOf store) = Normal s →
  apiOptionsFor (Some tokenOf) store options authenticated
  = Normal (spread options
              ▹ prop "headers"
                  (JObj (spread (field (spread options) "headers")
                           ▹ prop "Authorization" (JStr ("Bearer " +:+ s))))).
Proof.
  intros Hauth Htoken. unfold apiOptionsFor. rewrite Hauth, Htoken. simpl.
  by rewrite !rest_empty.
Qed.

Lemma apiOptionsFor_copies (getAuthToken : option (Store → JsVal)) store
    (options authenticated : JsVal) :
  toBoolean authenticated = false ∨ getAuthToken = None →
  apiOptionsFor getAuthToken store options authenticated = Normal (spread options).
Proof.
  intros Hoff. unfold apiOptionsFor. cbv zeta. rewrite !rest_empty.
  destruct Hoff as [-> | ->]; [done|]. by destruct (toBoolean authenticated).
Qed.

Lemma callApi_fetch_eta {platform : Platform} (url body method options : JsVal) :
  callApi_fetch url body method options
  = {| fetch_url := url;
       fetch_params := fetch_params (callApi_fetch url body method options) |}.
Proof. reflexivity. Qed.

(** The header is built from whatever the token source yields: with a
    truthy [authenticated] (or none) and a token source, the value it
    returns is converted to a string and sent after ["Bearer "], so a source
    without a token sends ["Bearer undefined"] or ["Bearer null"]; and when
    the conversion throws, the middleware throws before it has dispatched
    anything. *)
Theorem apiMiddleware_bearer_of_any_token config store next action apiCall
    (tokenOf : Store → JsVal) log :
  getProp action API_CALL = Normal apiCall →
  validDescriptor apiCall = true →
  toBoolean (withDefault (JBool true) (member apiCall "authenticated")) = true →
  getAuthToken config = Some tokenOf →
  match ToString (tokenOf store) with
  | Normal s =>
      ∃ req actions meta loadingAction options headers,
        apiMiddleware config store next action log
        = (Normal (Promise req actions meta), (log ++ [loadingAction])%list)
        ∧ req_options req = JObj options
        ∧ options !! "headers" = Some (JObj headers)
        ∧ headers !! "Authorization" = Some (JStr ("Bearer " +:+ s))
  | Throw e => apiMiddleware config store next action log = (Throw e, log)
  end.
Proof.
  intros Hcall Hvalid Hauth Hconfig.
  destruct (apiMiddleware_valid config store next action apiCall log Hcall Hvalid)
    as (loadingAction & _ & Hrun).
  rewrite Hconfig in Hrun.
  destruct (ToString (tokenOf store)) as [s|e] eqn:Htoken.
  - rewrite (apiOptionsFor_converted tokenOf store _ _ s) in Hrun by done.
    do 6 eexists. split; [exact Hrun|]. simpl.
    split; [reflexivity|]. split; by read_literal.
  - unfold apiOptionsFor in Hrun. rewrite Hauth, Htoken in Hrun. exact Hrun.
Qed.

(** Without a token source, or with a falsy [authenticated] ([false], [0],
    [''] or [null]), the options handed to [callApi] are a copy of the
    options of the descriptor: the middleware adds no header and removes
    none. *)
Theorem apiMiddleware_copies_options config store next action apiCall log :
  getProp action API_CALL = Normal apiCall →
  validDescriptor apiCall = true →
  toBoolean (withDefault (JBool true) (member apiCall "authenticated")) = false
  ∨ getAuthToken config = None →
  ∃ loadingAction,
    apiMiddleware config store next action log
    = (Normal (Promise {| req_url := member apiCall "url";
                          req_body := member apiCall "body";
                          req_method := member apiCall "method";
                          req_options := JObj (spread (member apiCall "options")) |}
                       (member apiCall "actions") (member apiCall "meta")),
       (log ++ [loadingAction])%list).
Proof.
  intros Hcall Hvalid Hoff.
  destruct (apiMiddleware_valid config store next action apiCall log Hcall Hvalid)
    as (loadingAction & _ & Hrun).
  rewrite apiOptionsFor_copies in Hrun by done. eauto.
Qed.

(** The header reaches [fetch]: for a descriptor that passes the checks,
    with a truthy [authenticated] and a token source that yields the string
    [t], the parameters [callApi] gives to [fetch] for the request of the
    middleware have [Authorization] set to ["Bearer "] followed by [t],
    whatever the method, and the URL is the [url] of the descriptor. *)
Theorem bearer_reaches_fetch {platform : Platform} config store next action apiCall
    (tokenOf : Store → JsVal) (t : string) log :
  getProp action API_CALL = Normal apiCall →
  validDescriptor apiCall = true →
  toBoolean (withDefault (JBool true) (member apiCall "authenticated")) = true →
  getAuthToken config = Some tokenOf →
  tokenOf store = JStr t →
  ∃ req actions meta loadingAction params sent,
    apiMiddleware config store next action log
    = (Normal (Promise req actions meta), (log ++ [loadingAction])%list)
    ∧ callApi_fetch (req_url req) (req_body req) (req_method req) (req_options req)
      = {| fetch_url := member apiCall "url"; fetch_params := JObj params |}
    ∧ params !! "headers" = Some (JObj sent)
    ∧ sent !! "Authorization" = Some (JStr ("Bearer " +:+ t)).
Proof.
  intros Hcall Hvalid Hauth Hconfig Htoken.
  destruct (apiMiddleware_valid config store next action apiCall log Hcall Hvalid)
    as (loadingAction & _ & Hrun).
  rewrite Hconfig in Hrun.
  rewrite (apiOptionsFor_converted tokenOf store _ _ t) in Hrun
    by (by rewrite ?Htoken).
  do 4 eexists.
  match type of Hrun with
  | _ = (Normal (Promise {| req_url := ?u; req_body := ?b; req_method := ?m;
                            req_options := JObj ?o |} _ _), _) =>
      destruct (callApi_fetch_header_kept u b m o
                  (spread (field (spread (member apiCall "options")) "headers")
                     ▹ prop "Authorization" (JStr ("Bearer " +:+ t)))
                  "Authorization" (JStr ("Bearer " +:+ t)))
        as (params & sent & Hparams & Hsent & Hbearer);
        [by read_literal|by read_literal|done|]
  end.
  exists params, sent. split; [exact Hrun|]. simpl. split; [|done].
  by rewrite callApi_fetch_eta, Hparams.
Qed.

End AuthorizationProperties.

Lemma apiMiddleware_bearer_of_any_token_witness :
  ∃ req actions meta loadingAction options headers,
    apiMiddleware {| getAuthToken := Some (fun _ : unit => JUndefined) |} ()
      Fixtures.next Fixtures.TEST_API_ACTION []
    = (Normal (Promise req actions meta), [loadingAction])
    ∧ req_options req = JObj options
    ∧ options !! "headers" = Some (JObj headers)
    ∧ headers !! "Authorization" = Some (JStr "Bearer undefined").
Proof.
  apply (apiMiddleware_bearer_of_any_token
           {| getAuthToken := Some (fun _ : unit => JUndefined) |} ()
           Fixtures.next Fixtures.TEST_API_ACTION (Fixtures.descriptor id)
           (fun _ => JUndefined) [] eq_refl eq_refl eq_refl eq_refl).
Defined.

Lemma apiMiddleware_copies_options_witness :
  ∃ loadingAction,
    apiMiddleware defaultConfig () Fixtures.next (Fixtures.apiAction Fixtures.withOptions) []
    = (Normal (Promise (Fixtures.request (JObj (spread Fixtures.acceptJson)))
                 Fixtures.TEST_API_ACTION_SET JUndefined),
       [loadingAction]).
Proof.
  apply (apiMiddleware_copies_options defaultConfig () Fixtures.next
           (Fixtures.apiAction Fixtures.withOptions) Fixtures.withOptions []
           eq_refl eq_refl (or_intror eq_refl)).
Defined.

Lemma bearer_reaches_fetch_witness :
  ∃ req actions meta loadingAction params sent,
    apiMiddleware Fixtures.prefs () Fixtures.next Fixtures.TEST_API_ACTION []
    = (Normal (Promise req actions meta), [loadingAction])
    ∧ callApi_fetch (platform := Fixtures.scalars)
        (req_url req) (req_body req) (req_method req) (req_options req)
      = {| fetch_url := JStr "/test"; fetch_params := JObj params |}
    ∧ params !! "headers" = Some (JObj sent)
    ∧ sent !! "Authorization" = Some (JStr "Bearer test_token").
Proof.
  apply (bearer_reaches_fetch (platform := Fixtures.scalars) Fixtures.prefs ()
           Fixtures.next Fixtures.TEST_API_ACTION (Fixtures.descriptor id)
           Fixtures.getTestToken "test_token" []
           eq_refl eq_refl eq_refl eq_refl eq_refl).
Defined.

(** ** The older middleware *)

(** The synchronous part of the older middleware on a descriptor that
    passes the checks. *)
Lemma legacy_apiMiddleware_valid (store : LegacyMiddleware.Store) (next : JsVal → JsVal)
    (action apiCall : JsVal) (log : list JsVal) :
  getProp action API_CALL = Normal apiCall →
  validDescriptor apiCall = true →
  LegacyMiddleware.apiMiddleware store next action log
  = match LegacyMiddleware.apiOptionsFor store (member apiCall "options")
            (withDefault (JBool true) (member apiCall "authenticated")) with
    | Normal apiOptions =>
        (Normal (Promise {| req_url := member apiCall "url";
                            req_body := member apiCall "body";
                            req_method := member apiCall "method";
                            req_options := JObj apiOptions |}
                         (member apiCall "actions") (member apiCall "meta")),
         (log ++ [JObj (∅ ▹ prop "type" (member (member apiCall "actions") "LOADING")
                          ▹ prop "apiActionType" (JStr apiActionType.LOADING)
                          ▹ rest (member apiCall "meta"))])%list)
    | Throw e => (Throw e, log)
    end.
Proof.
  intros Hcall (Hdef & Hurl & Hactions & Hs & He & Hl)%validDescriptor_spec.
  pose proof (truthy_defined _ Hactions) as Hadef.
  unfold LegacyMiddleware.apiMiddleware. rewrite Hcall. eff_steps.
  replace (isUndefined apiCall) with false by by destruct apiCall.
  rewrite !(getProp_defined apiCall) by done. eff_steps.
  rewrite Hurl, Hactions. cbn [negb].
  rewrite !(getProp_defined (member apiCall "actions")) by done. eff_steps.
  rewrite Hs, He, Hl. cbn [negb orb].
  destruct (LegacyMiddleware.apiOptionsFor _ _ _) as [apiOptions|e]; [|reflexivity].
  by eff_steps.
Qed.

Lemma legacy_apiOptionsFor_configured (store : LegacyMiddleware.Store)
    (options authenticated : JsVal) :
  isNullish (LegacyMiddleware.getState store) = false →
  isNullish (member (LegacyMiddleware.getState store) "auth") = false →
  LegacyMiddleware.apiOptionsFor store options authenticated
  = apiOptionsFor (Some LegacyMiddleware.accessTokenOf) store options authenticated.
Proof.
  intros Hstate Hauth.
  unfold LegacyMiddleware.apiOptionsFor, apiOptionsFor, LegacyMiddleware.getAuthToken,
    LegacyMiddleware.accessTokenOf.
  rewrite (getProp_defined _ "auth") by done. simpl.
  rewrite (getProp_defined _ "accessToken") by done. simpl.
  by destruct (toBoolean authenticated).
Qed.

(** The older middleware needs the state of the store to have an [auth]:
    on a descriptor that passes the checks and asks for authentication (the
    default), a state that is [null] or [undefined] or has no [auth] makes
    it throw a TypeError before it has dispatched anything; a descriptor
    with a falsy [authenticated] goes through whatever the state is. *)
Theorem legacy_apiMiddleware_needs_auth_state (store : LegacyMiddleware.Store)
    (next : JsVal → JsVal) (action apiCall : JsVal) (log : list JsVal) :
  getProp action API_CALL = Normal apiCall →
  validDescriptor apiCall = true →
  (toBoolean (withDefault (JBool true) (member apiCall "authenticated")) = true →
   isNullish (LegacyMiddleware.getState store) = true
   ∨ isNullish (member (LegacyMiddleware.getState store) "auth") = true →
   ∃ message, LegacyMiddleware.apiMiddleware store next action log
              = (Throw (newTypeError message), log))
  ∧ (toBoolean (withDefault (JBool true) (member apiCall "authenticated")) = false →
     ∃ req loadingAction,
       LegacyMiddleware.apiMiddleware store next action log
       = (Normal (Promise req (member apiCall "actions") (member apiCall "meta")),
          (log ++ [loadingAction])%list)
       ∧ req_options req = JObj (spread (member apiCall "options"))).
Proof.
  intros Hcall Hvalid.
  rewrite (legacy_apiMiddleware_valid store next action apiCall log Hcall Hvalid).
  unfold LegacyMiddleware.apiOptionsFor, LegacyMiddleware.getAuthToken. split.
  - intros -> Hmissing.
    destruct (isNullish (LegacyMiddleware.getState store)) eqn:Hstate.
    + rewrite (getProp_nullish_TypeError _ "auth") by done. simpl. eauto.
    + destruct Hmissing as [?|Hauth]; [done|].
      rewrite (getProp_defined _ "auth") by done. simpl.
      rewrite (getProp_nullish_TypeError _ "accessToken") by done. simpl. eauto.
  - intros ->. rewrite rest_empty. do 2 eexists. split; reflexivity.
Qed.

Lemma legacy_apiMiddleware_needs_auth_state_witness :
  (∃ message,
     LegacyMiddleware.apiMiddleware Fixtures.signedOut Fixtures.next
       Fixtures.TEST_API_ACTION []
     = (Throw (newTypeError message), []))
  ∧ ∃ req loadingAction,
      LegacyMiddleware.apiMiddleware Fixtures.signedOut Fixtures.next
        (Fixtures.apiAction Fixtures.unauthenticated) []
      = (Normal (Promise req Fixtures.TEST_API_ACTION_SET JUndefined), [loadingAction])
      ∧ req_options req = JObj ∅.
Proof.
  split.
  - apply (legacy_apiMiddleware_needs_auth_state Fixtures.signedOut Fixtures.next
             Fixtures.TEST_API_ACTION (Fixtures.descriptor id) [] eq_refl eq_refl);
      [reflexivity|right; reflexivity].
  - apply (legacy_apiMiddleware_needs_auth_state Fixtures.signedOut Fixtures.next
             (Fixtures.apiAction Fixtures.unauthenticated) Fixtures.unauthenticated []
             eq_refl eq_refl).
    reflexivity.
Defined.

(** The two middlewares do the same when the token of the configured one
    is the token the state holds: on every action they throw the same
    error, or forward the action, or hand the same request to [callApi];
    the loading actions they dispatch differ in [actionName] only. *)
Theorem legacy_apiMiddleware_agrees (store : LegacyMiddleware.Store)
    (next : JsVal → JsVal) (action : JsVal) (log : list JsVal) :
  isNullish (LegacyMiddleware.getState store) = false →
  isNullish (member (LegacyMiddleware.getState store) "auth") = false →
  match LegacyMiddleware.apiMiddleware store next action log,
        apiMiddleware {| getAuthToken := Some LegacyMiddleware.accessTokenOf |}
          store next action log with
  | (Throw e, log1), (Throw e', log2) => e = e' ∧ log1 = log ∧ log2 = log
  | (Normal (Value v), log1), (Normal (Value v'), log2) => v = v' ∧ log1 = log2
  | (Normal (Promise req actions meta), log1),
    (Normal (Promise req' actions' meta'), log2) =>
      req = req' ∧ actions = actions' ∧ meta = meta'
      ∧ ∃ a a', log1 = (log ++ [a])%list ∧ log2 = (log ++ [a'])%list
          ∧ ∀ k, k ≠ "actionName" → member a k = member a' k
  | _, _ => False
  end.
Proof.
  intros Hstate Hauth.
  destruct (getProp action API_CALL) as [apiCall|e] eqn:Hcall.
  2: { unfold LegacyMiddleware.apiMiddleware, apiMiddleware. rewrite Hcall.
       by eff_steps. }
  destruct (isUndefined apiCall) eqn:Hundef.
  { unfold LegacyMiddleware.apiMiddleware, apiMiddleware. rewrite Hcall. eff_steps.
    rewrite Hundef. by eff_steps. }
  destruct (validDescriptor apiCall) eqn:Hvalid.
  - rewrite (legacy_apiMiddleware_valid store next action apiCall log Hcall Hvalid).
    destruct (apiMiddleware_valid {| getAuthToken := Some LegacyMiddleware.accessTokenOf |}
                store next action apiCall log Hcall Hvalid)
      as (loadingAction & Hloading & ->).
    rewrite legacy_apiOptionsFor_configured by done. simpl getAuthToken.
    destruct (apiOptionsFor _ _ _ _) as [apiOptions|e]; [|done].
    split_and!; try done. do 2 eexists. split_and!; try done.
    intros k Hk.
    rewrite createLoadingAction_defined in Hloading.
    2: { apply validDescriptor_spec in Hvalid as (_ & _ & Htruthy & _).
         by apply truthy_defined. }
    injection Hloading as <-. rewrite !member_obj. f_equal. lookup_cases.
  - unfold LegacyMiddleware.apiMiddleware, apiMiddleware. rewrite Hcall. eff_steps.
    rewrite Hundef. cbv iota zeta.
    destruct (isNullish apiCall) eqn:Hdef.
    { rewrite (getProp_nullish_TypeError apiCall "url") by done. by eff_steps. }
    rewrite !(getProp_defined apiCall) by done. eff_steps.
    unfold validDescriptor in Hvalid. rewrite Hdef in Hvalid.
    destruct (isString (member apiCall "url")); cbn [negb]; [|done].
    destruct (toBoolean (member apiCall "actions")) eqn:Hactions; cbn [negb]; [|done].
    rewrite !(getProp_defined (member apiCall "actions")) by by apply truthy_defined.
    eff_steps.
    destruct (toBoolean (member (member apiCall "actions") "SUCCESS"));
      cbn [negb orb]; [|done].
    destruct (toBoolean (member (member apiCall "actions") "ERROR"));
      cbn [negb orb]; [|done].
    destruct (toBoolean (member (member apiCall "actions") "LOADING"));
      cbn [negb orb]; done.
Qed.

Lemma legacy_apiMiddleware_agrees_witness :
  LegacyMiddleware.apiMiddleware Fixtures.signedIn Fixtures.next Fixtures.TEST_API_ACTION []
  = (Normal (Promise (Fixtures.request Fixtures.bearerOptions)
               Fixtures.TEST_API_ACTION_SET JUndefined),
     [Fixtures.legacyLoadingAction])
  ∧ match LegacyMiddleware.apiMiddleware Fixtures.signedIn Fixtures.next
            Fixtures.TEST_API_ACTION [],
          apiMiddleware {| getAuthToken := Some LegacyMiddleware.accessTokenOf |}
            Fixtures.signedIn Fixtures.next Fixtures.TEST_API_ACTION [] with
    | (Normal (Promise req _ _), _), (Normal (Promise req' _ _), _) => req = req'
    | _, _ => False
    end.
Proof.
  split; [reflexivity|].
  pose proof (legacy_apiMiddleware_agrees Fixtures.signedIn Fixtures.next
                Fixtures.TEST_API_ACTION [] eq_refl eq_refl) as Hagree.
  exact (proj1 Hagree).
Defined.

(** The handlers of the two middlewares do the same as well: for an action
    set that passed the checks they dispatch one action each, equal apart
    from [actionName], or they both throw the same error and dispatch
    nothing. *)
Theorem legacy_settle_agrees (next : JsVal → JsVal) (actions meta : JsVal)
    (transport : Settled) (log : list JsVal) :
  isNullish actions = false →
  match LegacyMiddleware.settle next actions meta transport log,
        settle next actions meta transport log with
  | (Resolved v, log1), (Resolved v', log2) =>
      ∃ a a', v = next a ∧ v' = next a'
        ∧ log1 = (log ++ [a])%list ∧ log2 = (log ++ [a'])%list
        ∧ ∀ k, k ≠ "actionName" → member a k = member a' k
  | (Rejected e, log1), (Rejected e', log2) => e = e' ∧ log1 = log ∧ log2 = log
  | _, _ => False
  end.
Proof.
  intros Hactions.
  unfold LegacyMiddleware.settle, settle, then_.
  destruct transport as [response|error].
  - unfold LegacyMiddleware.onFulfilled, onFulfilled, createSuccessAction,
      Legacy.createSuccessAction.
    rewrite !(getProp_defined actions) by done. eff_steps. unfold call. simpl.
    do 2 eexists. split_and!; try done.
    intros k Hk. rewrite !member_obj. f_equal. lookup_cases.
  - unfold LegacyMiddleware.onRejected, onRejected, createErrorAction,
      Legacy.createErrorAction.
    destruct (getProp error "unauthorized") as [unauthorized|e]; eff_steps; [|done].
    rewrite !(getProp_defined actions) by done.
    destruct (toBoolean unauthorized); eff_steps;
      (destruct (callToString error) as [s|e]; simpl; eff_steps; [|done];
       unfold call; simpl; do 2 eexists; split_and!; try done;
       intros k Hk; rewrite !member_obj; f_equal; lookup_cases).
Qed.

Lemma legacy_settle_agrees_witness :
  LegacyMiddleware.settle Fixtures.next Fixtures.TEST_API_ACTION_SET JUndefined
    (Resolved Fixtures.TEST_EXPECTED_RESPONSE) [Fixtures.legacyLoadingAction]
  = (Resolved (JObj (spread Fixtures.successAction ▹ delete "actionName")),
     [Fixtures.legacyLoadingAction;
      JObj (spread Fixtures.successAction ▹ delete "actionName")])
  ∧ match LegacyMiddleware.settle Fixtures.next Fixtures.TEST_API_ACTION_SET JUndefined
            (Resolved Fixtures.TEST_EXPECTED_RESPONSE) [],
          settle Fixtures.next Fixtures.TEST_API_ACTION_SET JUndefined
            (Resolved Fixtures.TEST_EXPECTED_RESPONSE) [] with
    | (Resolved v, log1), (Resolved v', log2) =>
        ∃ a a', v = Fixtures.next a ∧ v' = Fixtures.next a'
          ∧ log1 = [a] ∧ log2 = [a']
          ∧ member a "response" = member a' "response"
    | (Rejected e, log1), (Rejected e', log2) => e = e' ∧ log1 = [] ∧ log2 = []
    | _, _ => False
    end.
Proof.
  split; [reflexivity|].
  destruct (legacy_settle_agrees Fixtures.next Fixtures.TEST_API_ACTION_SET JUndefined
              (Resolved Fixtures.TEST_EXPECTED_RESPONSE) [] eq_refl)
    as (a & a' & Hv & Hv' & Hlog1 & Hlog2 & Hsame).
  exists a, a'. split_and!; try assumption. apply Hsame. discriminate.
Defined.

(** ** A whole cycle *)

(** With an action set made by [createApiActionSet] and metadata that has
    no [type], the three actions of a cycle have the three types of the set,
    which are pairwise different: a reducer can tell the phases apart by
    [type]. *)
Theorem lifecycle_types_distinct (n : string) (set meta response error : JsVal)
    (s : string) :
  createApiActionSet (JStr n) = Normal set →
  spread meta !! "type" = None →
  callToString error = Normal s →
  ∃ loadingAction successAction errorAction,
    createLoadingAction set meta = Normal loadingAction
    ∧ createSuccessAction set response meta = Normal successAction
    ∧ createErrorAction set error meta = Normal errorAction
    ∧ member loadingAction "type" = JStr (n +:+ "_LOADING")
    ∧ member successAction "type" = JStr (n +:+ "_SUCCESS")
    ∧ member errorAction "type" = JStr (n +:+ "_ERROR")
    ∧ member loadingAction "type" ≠ member successAction "type"
    ∧ member loadingAction "type" ≠ member errorAction "type"
    ∧ member successAction "type" ≠ member errorAction "type".
Proof.
  intros [= <-] Hfree Herror.
  unfold createLoadingAction, createSuccessAction, createErrorAction.
  rewrite Herror. simpl.
  do 3 eexists. do 3 (split; [reflexivity|]).
  rewrite !member_obj. read_literal. simpl.
  split_and!; try done; intros [= Heq]; suffix_clash Heq.
Qed.

Lemma lifecycle_types_distinct_witness :
  ∃ loadingAction successAction errorAction,
    createLoadingAction Fixtures.TEST_API_ACTION_SET Fixtures.meta = Normal loadingAction
    ∧ createSuccessAction Fixtures.TEST_API_ACTION_SET JNull Fixtures.meta
      = Normal successAction
    ∧ createErrorAction Fixtures.TEST_API_ACTION_SET Fixtures.TEST_EXPECTED_RESPONSE
        Fixtures.meta = Normal errorAction
    ∧ member loadingAction "type" = JStr "TEST_ACTION_LOADING"
    ∧ member successAction "type" = JStr "TEST_ACTION_SUCCESS"
    ∧ member errorAction "type" = JStr "TEST_ACTION_ERROR"
    ∧ member loadingAction "type" ≠ member successAction "type"
    ∧ member loadingAction "type" ≠ member errorAction "type"
    ∧ member successAction "type" ≠ member errorAction "type".
Proof.
  apply (lifecycle_types_distinct "TEST_ACTION" Fixtures.TEST_API_ACTION_SET Fixtures.meta
           JNull Fixtures.TEST_EXPECTED_RESPONSE "[object Object]");
    reflexivity.
Defined.

(** Every action the middleware dispatches for a descriptor carries the
    metadata of the descriptor: for a descriptor that passes the checks and
    a property of its [meta], each action added to the log by the
    synchronous part and by the handlers has that property with that value,
    however the transport settles. *)
Theorem dispatched_actions_carry_meta {Store : Type} (config : Config Store) (store : Store)
    (next : JsVal → JsVal) (action apiCall : JsVal) (k : string) (v : JsVal)
    (transport : Settled) (log : list JsVal) :
  getProp action API_CALL = Normal apiCall →
  validDescriptor apiCall = true →
  spread (member apiCall "meta") !! k = Some v →
  match apiMiddleware config store next action log with
  | (Normal (Promise req actions meta), log1) =>
      ∀ a, a ∈ (settle next actions meta transport log1).2 →
        a ∈ log ∨ getProp a k = Normal v
  | (Normal (Value _), _) => False
  | (Throw _, log1) => log1 = log
  end.
Proof.
  intros Hcall Hvalid Hk.
  destruct (apiMiddleware_valid config store next action apiCall log Hcall Hvalid)
    as (loadingAction & Hloading & ->).
  destruct (apiOptionsFor _ _ _ _) as [apiOptions|e]; [|done].
  assert (isNullish (member apiCall "actions") = false) as Hactions.
  { apply validDescriptor_spec in Hvalid as (_ & _ & Htruthy & _).
    by apply truthy_defined. }
  rewrite createLoadingAction_defined in Hloading by done. injection Hloading as <-.
  assert (∀ a final, a ∈ ((log ++ [JObj (∅ ▹ prop "type" (member (member apiCall "actions") "LOADING")
                                        ▹ prop "apiActionType" (JStr apiActionType.LOADING)
                                        ▹ prop "actionName"
                                            (member (member apiCall "actions") "actionName")
                                        ▹ rest (member apiCall "meta"))]) ++ final)%list →
          (∀ b, b ∈ final → getProp b k = Normal v) →
          a ∈ log ∨ getProp a k = Normal v) as Hlog.
  { intros a final [[Hold|Hnew%list_elem_of_singleton]%elem_of_app|Hfinal]%elem_of_app Hall.
    - by left.
    - right. subst a. by apply getProp_rest_Some.
    - right. by apply Hall. }
  intros a. unfold settle, then_.
  destruct transport as [response|error].
  - unfold onFulfilled, createSuccessAction.
    rewrite !getProp_defined by done. eff_steps. unfold call. simpl.
    intros Ha. eapply Hlog; [exact Ha|].
    intros b ->%list_elem_of_singleton. by apply getProp_rest_Some.
  - unfold onRejected, createErrorAction.
    destruct (getProp error "unauthorized") as [unauthorized|e]; eff_steps.
    2: { simpl. intros Ha. apply (Hlog a []); [by rewrite app_nil_r|].
         intros b Hb. by apply elem_of_nil in Hb. }
    rewrite !getProp_defined by done.
    destruct (toBoolean unauthorized); eff_steps;
      (destruct (callToString error) as [s|e]; simpl; eff_steps; unfold call; simpl;
       [ intros Ha; eapply Hlog; [exact Ha|];
         intros b ->%list_elem_of_singleton; by apply getProp_rest_Some
       | intros Ha; apply (Hlog a []); [by rewrite app_nil_r|];
         intros b Hb; by apply elem_of_nil in Hb ]).
Qed.

Lemma dispatched_actions_carry_meta_witness :
  Forall (fun a => a ∈ [] ∨ getProp a "lastName" = Normal (JStr "Doe"))
    (settle Fixtures.next Fixtures.TEST_API_ACTION_SET Fixtures.meta
       (Rejected Fixtures.TEST_EXPECTED_RESPONSE)
       (apiMiddleware Fixtures.prefs () Fixtures.next
          (Fixtures.apiAction (Fixtures.descriptor (prop "meta" Fixtures.meta))) []).2).2.
Proof.
  apply Forall_forall.
  exact (dispatched_actions_carry_meta Fixtures.prefs () Fixtures.next
           (Fixtures.apiAction (Fixtures.descriptor (prop "meta" Fixtures.meta)))
           (Fixtures.descriptor (prop "meta" Fixtures.meta)) "lastName" (JStr "Doe")
           (Rejected Fixtures.TEST_EXPECTED_RESPONSE) [] eq_refl eq_refl eq_refl).
Defined.
